(** * SoroScan TypeScript SDK: the request pipeline of [sdk/typescript/src/client.ts]

    The development embeds the SDK client shallowly: the private [#request]
    operation, the constructor, [toQueryString], the [SoroScanError] class and
    the thirteen public methods become Rocq functions over an explicit model
    of the network, and the properties of the specification are stated about
    those functions. *)

From Stdlib Require Import ZArith String Ascii List Bool Lia.
From Stdlib Require Import DecimalString DecimalZ DecimalPos.
From Stdlib Require Import Permutation Sorted.
Import ListNotations.
Local Open Scope list_scope.
Local Open Scope string_scope.
Local Open Scope Z_scope.
Set Warnings "-register-all,-notation-for-abbreviation".

(* ------------------------------------------------------------------------- *)
(** * The fragment of the JavaScript platform used by [client.ts] *)
(* ------------------------------------------------------------------------- *)

Module Js.

(** Strings are well-formed Unicode strings, represented by their UTF-8 bytes
    (one [ascii] per byte); [encodeURIComponent] and [URLSearchParams] both
    work on exactly these bytes.  Numbers are the integer-valued ones (ledger
    sequences, page sizes, HTTP statuses, milliseconds): [JNum n], and an
    integer standing for a number elsewhere, is the Number value for [n],
    which is [n] itself up to 2^53 - 1 in magnitude and the nearest double
    beyond.  The properties of an object are listed in the order in which
    they were created. *)
Inductive JsValue : Type :=
| JUndefined
| JNull
| JBool (b : bool)
| JNum (n : Z)
| JStr (s : string)
| JArr (items : list JsValue)
| JObj (props : list (string * JsValue)).

(** A mapping from keys to values, as an object used as a record: its own
    enumerable properties, in the order of their insertion. *)
Definition Entries : Type := list (string * JsValue).

(** [v === undefined || v === null], the test behind [??] and the filter of
    [toQueryString]. *)
Definition nullish (v : JsValue) : bool :=
  match v with
  | JUndefined | JNull => true
  | _ => false
  end.

(** [a ?? b] *)
Definition coalesce (a b : JsValue) : JsValue :=
  if nullish a then b else a.

(** Truthiness of a string: only the empty string is falsy. *)
Definition truthy_string (s : string) : bool :=
  negb (s =? "")%string.

(** ** Numbers as text *)

(** The decimal numeral of an integer. *)
Definition decimal (n : Z) : string :=
  NilZero.string_of_int (Z.to_int n).

Definition MAX_SAFE_INTEGER : Z := 9007199254740991.

(** The Number value for a non-negative integer: the nearest double, ties
    to the even significand; [None] when that is [Infinity]. *)
Definition Number_value (n : Z) : option Z :=
  let e := Z.log2 n in
  if e <? 53 then Some n
  else
    let ulp := 2 ^ (e - 52) in
    let q := n / ulp in
    let r := n mod ulp in
    let q' := if ((ulp <? 2 * r) || ((ulp =? 2 * r) && Z.odd q))%bool
              then q + 1 else q in
    if 2 ^ 1024 <=? q' * ulp then None else Some (q' * ulp).

Definition digits_of (x : Z) : Z := Z.of_nat (String.length (decimal x)).

(** The Number value for [v] is [x]. *)
Definition rounds_to (x v : Z) : bool :=
  match Number_value v with
  | Some y => y =? x
  | None => false
  end.

(** The [k]-digit [s] for which [s * 10^(n-k)] has the Number value [x], if
    there is one; of two such, the one closest to [x], and the even one when
    they are as close. *)
Definition digits_at (x n k : Z) : option Z :=
  let p := 10 ^ (n - k) in
  let lo := x / p in
  let hi := lo + 1 in
  let fits s :=
    ((10 ^ (k - 1) <=? s) && (s <? 10 ^ k) && rounds_to x (s * p))%bool in
  match fits lo, fits hi with
  | true, true =>
      let below := x - lo * p in
      let above := hi * p - x in
      if below <? above then Some lo
      else if above <? below then Some hi
      else if Z.even lo then Some lo else Some hi
  | true, false => Some lo
  | false, true => Some hi
  | false, false => None
  end.

Fixpoint shortest_from (fuel : nat) (x n k : Z) : Z * Z :=
  match fuel with
  | O => (k, x / 10 ^ (n - k))
  | S fuel' =>
      match digits_at x n k with
      | Some s => (k, s)
      | None => if n <=? k then (k, x) else shortest_from fuel' x n (k + 1)
      end
  end.

(** The [n], [k] and [s] of Number::toString for a double [x >= 1] that is
    an integer: the fewest digits [s] (there are [k] of them) such that
    [s * 10^(n-k)] has the Number value [x]; seventeen digits always do. *)
Definition shortest_digits (x : Z) : Z * Z * Z :=
  let n := digits_of x in
  if rounds_to x (10 ^ n) then (n + 1, 1, 1)
  else let (k, s) := shortest_from 17 x n 1 in (n, k, s).

Fixpoint zeros (count : nat) : string :=
  match count with
  | O => ""
  | S c => String "0" (zeros c)
  end.

(** Number::toString for such an [x]: the digits followed by zeros up to
    21 digits in all, the exponent form [d.ddde+x] beyond. *)
Definition Number_toString_positive (x : Z) : string :=
  let '(n, k, s) := shortest_digits x in
  if n <=? 21 then decimal s ++ zeros (Z.to_nat (n - k))
  else
    match decimal s with
    | String d "" => String d ("e+" ++ decimal (n - 1))
    | String d rest => String d ("." ++ rest ++ "e+" ++ decimal (n - 1))
    | "" => ""
    end.

(** [String(n)] and [`${n}`] for the Number value for the integer [n].  Up
    to 2^53 - 1 in magnitude the integer is a Number exactly and is written
    as its decimal numeral. *)
Definition String_of_number (n : Z) : string :=
  if Z.abs n <=? MAX_SAFE_INTEGER then decimal n
  else
    match Number_value (Z.abs n) with
    | None => if n <? 0 then "-Infinity" else "Infinity"
    | Some x => (if n <? 0 then "-" else "") ++ Number_toString_positive x
    end.
Arguments String_of_number : simpl never.

(** [Number.isFinite] of the Number value for [n]. *)
Definition is_finite (n : Z) : bool :=
  match Number_value (Z.abs n) with
  | Some _ => true
  | None => false
  end.

(** ** Property order *)

Fixpoint digits_value (acc : N) (s : string) : option N :=
  match s with
  | EmptyString => Some acc
  | String c rest =>
      let d := nat_of_ascii c in
      if (Nat.leb 48 d && Nat.leb d 57)%bool
      then digits_value (10 * acc + N.of_nat (d - 48))%N rest
      else None
  end.

(** The array index that a property key is, if it is one: the canonical
    decimal numeral of an integer from 0 to 2^32 - 2. *)
Definition array_index (key : string) : option N :=
  match key with
  | EmptyString => None
  | String c rest =>
      if ((c =? "0")%char && negb (rest =? "")%string)%bool then None
      else match digits_value 0 key with
           | Some i => if (i <=? 4294967294)%N then Some i else None
           | None => None
           end
  end.

Definition is_index {A} (kv : string * A) : bool :=
  match array_index (fst kv) with
  | Some _ => true
  | None => false
  end.

Definition index_of {A} (kv : string * A) : N :=
  match array_index (fst kv) with
  | Some i => i
  | None => 0%N
  end.

Fixpoint insert_by_index {A} (x : string * A) (sorted : list (string * A))
    : list (string * A) :=
  match sorted with
  | [] => [x]
  | y :: rest =>
      if (index_of x <=? index_of y)%N then x :: sorted
      else y :: insert_by_index x rest
  end.

Definition sort_by_index {A} (l : list (string * A)) : list (string * A) :=
  fold_right insert_by_index [] l.

(** The order in which the own properties of an object are enumerated: the
    keys that are array indices first, in ascending numeric order, then the
    other keys in the order of their creation. *)
Definition property_order {A} (props : list (string * A)) : list (string * A) :=
  (sort_by_index (filter is_index props)
   ++ filter (fun kv => negb (is_index kv)) props)%list.

(** [Object.entries(o)] *)
Definition Object_entries (o : Entries) : Entries := property_order o.

(** [Array.prototype.join] on already converted elements. *)
Fixpoint join (sep : string) (parts : list string) : string :=
  match parts with
  | [] => ""
  | [x] => x
  | x :: rest => x ++ sep ++ join sep rest
  end.

(** [String(v)].  An array is the comma-joined conversion of its elements,
    with [null] and [undefined] elements shown as the empty string; a plain
    object (one that does not shadow [toString]) is ["[object Object]"]. *)
Fixpoint String_ (v : JsValue) : string :=
  match v with
  | JUndefined => "undefined"
  | JNull => "null"
  | JBool true => "true"
  | JBool false => "false"
  | JNum n => String_of_number n
  | JStr s => s
  | JArr items =>
      join "," (map (fun x => if nullish x then "" else String_ x) items)
  | JObj _ => "[object Object]"
  end.

(** Property read [v.key] for the keys [client.ts] reads ([code], [message],
    [details]): an own property of an object, [undefined] on anything else
    (no prototype defines these keys). *)
Fixpoint lookup (key : string) (props : list (string * JsValue)) : JsValue :=
  match props with
  | [] => JUndefined
  | (k, v) :: rest => if (k =? key)%string then v else lookup key rest
  end.

Definition get (v : JsValue) (key : string) : JsValue :=
  match v with
  | JObj props => lookup key props
  | _ => JUndefined
  end.

(** ** Percent-encoding *)

Definition hex_digit (n : nat) : ascii :=
  match n with
  | 0 => "0" | 1 => "1" | 2 => "2" | 3 => "3" | 4 => "4" | 5 => "5"
  | 6 => "6" | 7 => "7" | 8 => "8" | 9 => "9" | 10 => "A" | 11 => "B"
  | 12 => "C" | 13 => "D" | 14 => "E" | _ => "F"
  end%nat%char.

(** [%XX] with upper-case hexadecimal digits. *)
Definition percent_byte (c : ascii) : string :=
  let n := nat_of_ascii c in
  String "%" (String (hex_digit (n / 16)) (String (hex_digit (n mod 16)) "")).

Definition in_range (lo hi : nat) (c : ascii) : bool :=
  let n := nat_of_ascii c in (Nat.leb lo n && Nat.leb n hi)%bool.

Definition is_alphanumeric (c : ascii) : bool :=
  (in_range 48 57 c || in_range 65 90 c || in_range 97 122 c)%bool.

Definition one_of (set : string) (c : ascii) : bool :=
  existsb (Ascii.eqb c) (list_ascii_of_string set).

(** The characters [encodeURIComponent] leaves alone: letters, digits and
    [- _ . ! ~ * ' ( )].  Every other byte of the UTF-8 form is written as
    [%XX]. *)
Definition uri_unreserved (c : ascii) : bool :=
  (is_alphanumeric c || one_of "-_.!~*'()" c)%bool.

Fixpoint encodeURIComponent (s : string) : string :=
  match s with
  | EmptyString => EmptyString
  | String c rest =>
      (if uri_unreserved c then String c EmptyString else percent_byte c)
        ++ encodeURIComponent rest
  end.

(** The application/x-www-form-urlencoded byte serialiser behind
    [URLSearchParams.prototype.toString]: letters, digits and [* - . _] stay,
    a space becomes [+], every other byte is percent-encoded. *)
Definition form_byte (c : ascii) : string :=
  if (c =? " ")%char then "+"
  else if (is_alphanumeric c || one_of "*-._" c)%bool then String c EmptyString
  else percent_byte c.

Fixpoint form_urlencode (s : string) : string :=
  match s with
  | EmptyString => EmptyString
  | String c rest => form_byte c ++ form_urlencode rest
  end.

(** [new URLSearchParams(pairs).toString()] *)
Definition URLSearchParams_toString (pairs : list (string * string)) : string :=
  join "&" (map (fun kv => form_urlencode (fst kv) ++ "=" ++ form_urlencode (snd kv))
                pairs).

(** [s.replace(/\/$/, "")]: the pattern matches one slash at the very end of
    the string, and that one match is deleted. *)
Fixpoint replace_trailing_slash (s : string) : string :=
  match s with
  | EmptyString => EmptyString
  | String c rest =>
      match rest with
      | EmptyString => if (c =? "/")%char then EmptyString else s
      | String _ _ => String c (replace_trailing_slash rest)
      end
  end.

(** ** [JSON.stringify] *)

Definition lower_hex_digit (n : nat) : ascii :=
  match n with
  | 10 => "a" | 11 => "b" | 12 => "c" | 13 => "d" | 14 => "e" | 15 => "f"
  | _ => hex_digit n
  end%nat%char.

Definition json_escape_char (c : ascii) : string :=
  let n := nat_of_ascii c in
  if Nat.eqb n 34 then String "\" (String c "")
  else if Nat.eqb n 92 then "\\"
  else if Nat.eqb n 8 then "\b"
  else if Nat.eqb n 12 then "\f"
  else if Nat.eqb n 10 then "\n"
  else if Nat.eqb n 13 then "\r"
  else if Nat.eqb n 9 then "\t"
  else if Nat.ltb n 32 then
    "\u00" ++ String (lower_hex_digit (n / 16)) (String (lower_hex_digit (n mod 16)) "")
  else String c "".

Fixpoint json_escape (s : string) : string :=
  match s with
  | EmptyString => EmptyString
  | String c rest => json_escape_char c ++ json_escape rest
  end.

Definition json_quote (s : string) : string :=
  String "034" (json_escape s ++ String "034" EmptyString).

(** The members of an object literal, from the keys with the text of their
    values, a key whose value is [undefined] having none. *)
Definition json_members (props : list (string * option string)) : list string :=
  flat_map (fun kt => match snd kt with
                      | Some text => [json_quote (fst kt) ++ ":" ++ text]
                      | None => []
                      end) props.

(** [JSON.stringify(v)] for a value other than [undefined]: object
    properties are written in property order and those holding [undefined]
    are dropped, [undefined] array elements and numbers that are not finite
    are written as [null]. *)
Fixpoint JSON_stringify (v : JsValue) : string :=
  match v with
  | JUndefined => "null"
  | JNull => "null"
  | JBool true => "true"
  | JBool false => "false"
  | JNum n => if is_finite n then String_of_number n else "null"
  | JStr s => json_quote s
  | JArr items => "[" ++ join "," (map JSON_stringify items) ++ "]"
  | JObj props =>
      "{" ++ join ","
              (json_members
                 (property_order
                    (map (fun kv =>
                            match kv with
                            | (k, JUndefined) => (k, None)
                            | (k, x) => (k, Some (JSON_stringify x))
                            end) props)))
          ++ "}"
  end.

End Js.

(* ------------------------------------------------------------------------- *)
(** * The network, and the effects of an asynchronous method *)
(* ------------------------------------------------------------------------- *)

Module Net.
Import Js.

Inductive Method : Type := GET | POST | PATCH | DELETE.

(** The [RequestInit] handed to [fetch].  Its [signal] is the signal of the
    call's own [AbortController]; the only party that aborts it is the
    callback of the timer armed by [setTimeout], which is what [TimerFired]
    below stands for. *)
Record RequestInit : Type := mkInit {
  init_method : Method;
  init_headers : list (string * string);
  init_body : option string
}.

Record Request : Type := mkRequest {
  req_url : string;
  req_init : RequestInit
}.

(** A [Response]: status line, and what [response.json()] settles with
    ([None] when it rejects: empty or malformed body). *)
Record Response : Type := mkResponse {
  status : Z;
  statusText : string;
  json_outcome : option JsValue
}.

(** [response.ok]: the status is in the range 200-299. *)
Definition ok (r : Response) : bool :=
  ((200 <=? status r) && (status r <=? 299))%bool.

(** The [SoroScanError] class of [client.ts]. *)
Record SoroScanError : Type := mkSoroScanError {
  message : string;
  name : string;
  statusCode : Z;
  code : JsValue;
  details : JsValue
}.

(** Values that can be thrown: an [Error] object of the platform (with its
    [name] and [message]), a [SoroScanError], or a value that is not an
    [Error] at all. *)
Inductive Thrown : Type :=
| ErrorObject (error_name error_message : string)
| ApiError (e : SoroScanError)
| NonError (v : JsValue).

(** [err instanceof Error] *)
Definition instanceof_Error (err : Thrown) : bool :=
  match err with
  | ErrorObject _ _ | ApiError _ => true
  | NonError _ => false
  end.

(** [err.name] *)
Definition name_of (err : Thrown) : JsValue :=
  match err with
  | ErrorObject n _ => JStr n
  | ApiError e => JStr (name e)
  | NonError v => get v "name"
  end.

(** [x === "literal"] *)
Definition strict_equals_string (x : JsValue) (lit : string) : bool :=
  match x with
  | JStr s => (s =? lit)%string
  | _ => false
  end.

(** How one [fetch] call settles: the server answered; the call's timer
    fired first and aborted the signal; or [fetch] rejected with [err] for a
    reason of its own (a network failure, which the platform reports as a
    [TypeError], or whatever else the [fetch] in use rejects with). *)
Inductive FetchResult : Type :=
| Fetched (r : Response)
| TimerFired
| Failed (err : Thrown).

(** The [DOMException] with which [fetch] rejects when its signal aborts. *)
Definition AbortError : Thrown :=
  ErrorObject "AbortError" "This operation was aborted".

(** The world outside the client: the requests issued so far (oldest first),
    how the network settles a request given that history, and the timers of
    the platform: those that are armed (handle and delay in milliseconds) and
    the next free handle. *)
Record World : Type := mkWorld {
  sent : list Request;
  network : list Request -> Request -> FetchResult;
  timers : list (nat * Z);
  next_timer : nat
}.

Inductive Completion (A : Type) : Type :=
| Normal (a : A)
| Throw (err : Thrown).
Arguments Normal {A} a.
Arguments Throw {A} err.

(** An effectful computation: it may issue requests and it returns or throws. *)
Definition M (A : Type) : Type := World -> Completion A * World.

Definition ret {A} (a : A) : M A := fun w => (Normal a, w).

Definition throw {A} (err : Thrown) : M A := fun w => (Throw err, w).

Definition bind {A B} (m : M A) (k : A -> M B) : M B :=
  fun w =>
    match m w with
    | (Normal a, w') => k a w'
    | (Throw err, w') => (Throw err, w')
    end.

(** [try { m } catch (err) { handler err }] and [promise.catch(handler)] *)
Definition try_catch {A} (m : M A) (handler : Thrown -> M A) : M A :=
  fun w =>
    match m w with
    | (Normal a, w') => (Normal a, w')
    | (Throw err, w') => handler err w'
    end.

Notation "x <- m ;; k" := (bind m (fun x => k))
  (at level 61, m at next level, right associativity).

(** [try { m } finally { cleanup }] *)
Definition try_finally {A} (m : M A) (cleanup : M unit) : M A :=
  fun w =>
    match m w with
    | (completion, w') =>
        match cleanup w' with
        | (Normal _, w'') => (completion, w'')
        | (Throw err, w'') => (Throw err, w'')
        end
    end.

(** [setTimeout(callback, ms)]: arms a timer and returns its handle. *)
Definition setTimeout (ms : Z) : M nat :=
  fun w =>
    (Normal (next_timer w),
     mkWorld (sent w) (network w) ((next_timer w, ms) :: timers w)
             (S (next_timer w))).

Fixpoint disarm (handle : nat) (armed : list (nat * Z)) : list (nat * Z) :=
  match armed with
  | [] => []
  | (h, ms) :: rest =>
      if Nat.eqb h handle then rest else (h, ms) :: disarm handle rest
  end.

(** [clearTimeout(handle)] *)
Definition clearTimeout (handle : nat) : M unit :=
  fun w =>
    (Normal tt,
     mkWorld (sent w) (network w) (disarm handle (timers w)) (next_timer w)).

(** [await fetch(url, init)] *)
Definition fetch (url : string) (init : RequestInit) : M Response :=
  fun w =>
    let req := mkRequest url init in
    let w' := mkWorld (sent w ++ [req])%list (network w) (timers w) (next_timer w) in
    match network w (sent w) req with
    | Fetched r => (Normal r, w')
    | TimerFired => (Throw AbortError, w')
    | Failed err => (Throw err, w')
    end.

(** [await response.json()] *)
Definition Response_json (r : Response) : M JsValue :=
  match json_outcome r with
  | Some v => ret v
  | None => throw (ErrorObject "SyntaxError" "Unexpected end of JSON input")
  end.

End Net.

(* ------------------------------------------------------------------------- *)
(** * [client.ts] *)
(* ------------------------------------------------------------------------- *)

Module Client.
Import Js Net.

(** [SoroScanClientConfig] of [types.ts] *)
Record SoroScanClientConfig : Type := mkConfig {
  baseUrl : string;
  apiKey : option string;
  timeoutMs : option Z
}.

(** [super(message)]: the [message] of an [Error] built from [message];
    an [undefined] argument leaves the inherited empty message. *)
Definition Error_message (m : JsValue) : string :=
  match m with
  | JUndefined => ""
  | _ => String_ m
  end.

(** [new SoroScanError(statusCode, apiError)] *)
Definition new_SoroScanError (statusCode : Z) (apiError : JsValue) : SoroScanError :=
  {| message := Error_message (get apiError "message");
     name := "SoroScanError";
     statusCode := statusCode;
     code := get apiError "code";
     details := get apiError "details" |}.

Definition present (kv : string * JsValue) : bool := negb (nullish (snd kv)).

Definition toQueryString (params : Entries) : string :=
  let entries := filter present (Object_entries params) in
  if (Nat.eqb (List.length entries) 0) then ""
  else "?" ++ URLSearchParams_toString
                (map (fun kv => (fst kv, String_ (snd kv))) entries).

(** The private fields [#baseUrl], [#apiKey], [#timeoutMs] of a client. *)
Record SoroScanClient : Type := mkClient {
  priv_baseUrl : string;
  priv_apiKey : option string;
  priv_timeoutMs : Z
}.

(** [new SoroScanClient(config)] *)
Definition constructor (config : SoroScanClientConfig) : M SoroScanClient :=
  if negb (truthy_string (baseUrl config)) then
    throw (ErrorObject "Error" "SoroScanClient: baseUrl is required")
  else
    ret {| priv_baseUrl := replace_trailing_slash (baseUrl config);
           priv_apiKey := apiKey config;
           priv_timeoutMs := match timeoutMs config with
                             | Some ms => ms
                             | None => 30000
                             end |}.

(** The [options] argument of [#request]: [query] may be absent; an absent
    [body] is [undefined]. *)
Record RequestOptions : Type := mkOptions {
  query : option Entries;
  body : JsValue
}.

Definition no_options : RequestOptions := mkOptions None JUndefined.

(** The private [#request] method. *)
Definition request (this : SoroScanClient) (method : Method) (path : string)
    (options : RequestOptions) : M JsValue :=
  let url :=
    priv_baseUrl this ++ path ++
    (match query options with
     | Some q => toQueryString q
     | None => ""
     end) in
  let headers :=
    [("Content-Type", "application/json"); ("Accept", "application/json")] in
  let headers :=
    match priv_apiKey this with
    | Some key =>
        if truthy_string key
        then (headers ++ [("Authorization", ("Bearer " ++ key)%string)])%list
        else headers
    | None => headers
    end in
  timer <- setTimeout (priv_timeoutMs this) ;;
  response <-
    try_finally
      (try_catch
         (let init :=
            mkInit method headers
                   (match body options with
                    | JUndefined => None
                    | b => Some (JSON_stringify b)
                    end) in
          fetch url init)
         (fun err =>
            if (instanceof_Error err
                && strict_equals_string (name_of err) "AbortError")%bool
            then throw (ErrorObject "Error"
                          ("SoroScanClient: request timed out after "
                             ++ String_of_number (priv_timeoutMs this) ++ "ms"))
            else throw err))
      (clearTimeout timer) ;;
  if status response =? 204 then ret JUndefined
  else
    json <- try_catch (Response_json response) (fun _ => ret JNull) ;;
    if negb (ok response) then
      let apiError :=
        coalesce json
          (JObj [("code", JStr "UNKNOWN_ERROR");
                 ("message",
                  JStr ("HTTP " ++ String_of_number (status response) ++ " "
                          ++ statusText response))]) in
      throw (ApiError (new_SoroScanError (status response) apiError))
    else ret json.

(** A parameter bag with the default [= {}]. *)
Definition or_empty (params : option Entries) : Entries :=
  match params with
  | Some p => p
  | None => []
  end.

Record GetContractParams : Type := { contractId : string }.
Record GetAccountParams : Type := { accountId : string }.

Definition getEvents (this : SoroScanClient) (params : option Entries) : M JsValue :=
  request this GET "/v1/events" (mkOptions (Some (or_empty params)) JUndefined).

Definition getContracts (this : SoroScanClient) (params : option Entries) : M JsValue :=
  request this GET "/v1/contracts" (mkOptions (Some (or_empty params)) JUndefined).

Definition getContract (this : SoroScanClient) (params : GetContractParams) : M JsValue :=
  let contractId := contractId params in
  request this GET ("/v1/contracts/" ++ encodeURIComponent contractId) no_options.

Definition getTransactions (this : SoroScanClient) (params : option Entries) : M JsValue :=
  request this GET "/v1/transactions" (mkOptions (Some (or_empty params)) JUndefined).

Definition getTransaction (this : SoroScanClient) (txHash : string) : M JsValue :=
  request this GET ("/v1/transactions/" ++ encodeURIComponent txHash) no_options.

Definition getLedgers (this : SoroScanClient) (params : option Entries) : M JsValue :=
  request this GET "/v1/ledgers" (mkOptions (Some (or_empty params)) JUndefined).

Definition getLedger (this : SoroScanClient) (sequence : Z) : M JsValue :=
  request this GET ("/v1/ledgers/" ++ String_of_number sequence) no_options.

Definition getAccount (this : SoroScanClient) (params : GetAccountParams) : M JsValue :=
  let accountId := accountId params in
  request this GET ("/v1/accounts/" ++ encodeURIComponent accountId) no_options.

Definition subscribeWebhook (this : SoroScanClient) (params : JsValue) : M JsValue :=
  request this POST "/v1/webhooks" (mkOptions None params).

Definition listWebhooks (this : SoroScanClient) : M JsValue :=
  request this GET "/v1/webhooks" no_options.

Definition getWebhook (this : SoroScanClient) (webhookId : string) : M JsValue :=
  request this GET ("/v1/webhooks/" ++ encodeURIComponent webhookId) no_options.

Definition updateWebhook (this : SoroScanClient) (webhookId : string)
    (params : JsValue) : M JsValue :=
  request this PATCH ("/v1/webhooks/" ++ encodeURIComponent webhookId)
          (mkOptions None params).

Definition deleteWebhook (this : SoroScanClient) (webhookId : string) : M JsValue :=
  request this DELETE ("/v1/webhooks/" ++ encodeURIComponent webhookId) no_options.

End Client.

(* ------------------------------------------------------------------------- *)
(** * Reading the emitted text back

    What the receiving side does with a path segment and a query string: the
    percent-decoder and the application/x-www-form-urlencoded parser of the
    URL standard.  They are not part of [client.ts]; the statements about the
    emitted URL are phrased through them. *)
(* ------------------------------------------------------------------------- *)

Module Wire.
Import Js.

Definition hex_value (c : ascii) : option nat :=
  let n := nat_of_ascii c in
  if in_range 48 57 c then Some (n - 48)%nat
  else if in_range 65 70 c then Some (n - 55)%nat
  else if in_range 97 102 c then Some (n - 87)%nat
  else None.

(** Percent-decoding of the URL standard: a [%] followed by two hexadecimal
    digits is one byte, anything else stands for itself. *)
Fixpoint percent_decode (s : string) : string :=
  match s with
  | EmptyString => EmptyString
  | String c rest =>
      if (c =? "%")%char then
        match rest with
        | String h1 (String h2 rest') =>
            match hex_value h1, hex_value h2 with
            | Some a, Some b =>
                String (ascii_of_nat (16 * a + b)) (percent_decode rest')
            | _, _ => String c (percent_decode rest)
            end
        | _ => String c (percent_decode rest)
        end
      else String c (percent_decode rest)
  end.

Fixpoint plus_to_space (s : string) : string :=
  match s with
  | EmptyString => EmptyString
  | String c rest =>
      String (if (c =? "+")%char then " "%char else c) (plus_to_space rest)
  end.

(** The pieces of [s] between occurrences of [sep]. *)
Fixpoint split_on (sep : ascii) (s : string) : list string :=
  match s with
  | EmptyString => [EmptyString]
  | String c rest =>
      if (c =? sep)%char then EmptyString :: split_on sep rest
      else match split_on sep rest with
           | [] => [String c EmptyString]
           | piece :: pieces => String c piece :: pieces
           end
  end.

(** [s] cut at its first [sep]: what is before and what is after; when there
    is no [sep], all of [s] and the empty string. *)
Fixpoint cut_at_first (sep : ascii) (s : string) : string * string :=
  match s with
  | EmptyString => (EmptyString, EmptyString)
  | String c rest =>
      if (c =? sep)%char then (EmptyString, rest)
      else let (before, after) := cut_at_first sep rest in
           (String c before, after)
  end.

Definition decode_component (s : string) : string :=
  percent_decode (plus_to_space s).

(** The application/x-www-form-urlencoded parser: the name-value pairs of a
    query string (without its leading [?]), in order. *)
Definition parse_urlencoded (s : string) : list (string * string) :=
  map (fun piece =>
         let (n, v) := cut_at_first "=" piece in
         (decode_component n, decode_component v))
      (filter (fun piece => negb (piece =? "")%string) (split_on "&" s)).

(** Every character of [s] satisfies [p]. *)
Fixpoint all_chars (p : ascii -> bool) (s : string) : bool :=
  match s with
  | EmptyString => true
  | String c rest => (p c && all_chars p rest)%bool
  end.

(** [s] ends with the character [c]. *)
Fixpoint ends_with (c : ascii) (s : string) : bool :=
  match s with
  | EmptyString => false
  | String d EmptyString => (d =? c)%char
  | String _ rest => ends_with c rest
  end.

(** [part] occurs in [s]. *)
Definition occurs_in (part s : string) : Prop :=
  exists before after, s = before ++ part ++ after.


(** Neither [&] nor [=]. *)
Definition not_amp_eq (c : ascii) : bool :=
  (negb (c =? "&")%char && negb (c =? "=")%char)%bool.

Definition differs_from (sep : ascii) (c : ascii) : bool := negb (c =? sep)%char.

(** One serialised pair. *)
Definition form_pair (kv : string * string) : string :=
  form_urlencode (fst kv) ++ "=" ++ form_urlencode (snd kv).


End Wire.

(* ------------------------------------------------------------------------- *)
(** * Running a method: the request it issues and how it completes *)
(* ------------------------------------------------------------------------- *)

Module Run.
Import Js Net Client.

(** The requests a computation issues when it is run from [w]. *)
Definition issued {A} (m : M A) (w : World) : list Request :=
  skipn (List.length (sent w)) (sent (snd (m w))).

(** How the network settles the first request that [m] issues from [w]. *)
Definition answer {A} (m : M A) (w : World) : option FetchResult :=
  match issued m w with
  | req :: _ => Some (network w (sent w) req)
  | [] => None
  end.

(** How [m] completes when it is run from [w]. *)
Definition outcome {A} (m : M A) (w : World) : Completion A := fst (m w).

(** A call of one of the public methods, with its arguments. *)
Inductive Call : Type :=
| GetEvents (params : option Entries)
| GetContracts (params : option Entries)
| GetContract (params : GetContractParams)
| GetTransactions (params : option Entries)
| GetTransaction (txHash : string)
| GetLedgers (params : option Entries)
| GetLedger (sequence : Z)
| GetAccount (params : GetAccountParams)
| SubscribeWebhook (params : JsValue)
| ListWebhooks
| GetWebhook (webhookId : string)
| UpdateWebhook (webhookId : string) (params : JsValue)
| DeleteWebhook (webhookId : string).

Definition invoke (this : SoroScanClient) (call : Call) : M JsValue :=
  match call with
  | GetEvents params => getEvents this params
  | GetContracts params => getContracts this params
  | GetContract params => getContract this params
  | GetTransactions params => getTransactions this params
  | GetTransaction txHash => getTransaction this txHash
  | GetLedgers params => getLedgers this params
  | GetLedger sequence => getLedger this sequence
  | GetAccount params => getAccount this params
  | SubscribeWebhook params => subscribeWebhook this params
  | ListWebhooks => listWebhooks this
  | GetWebhook webhookId => getWebhook this webhookId
  | UpdateWebhook webhookId params => updateWebhook this webhookId params
  | DeleteWebhook webhookId => deleteWebhook this webhookId
  end.

(** The headers of every request of a client. *)
Definition headers_of (this : SoroScanClient) : list (string * string) :=
  ([("Content-Type", "application/json"); ("Accept", "application/json")]
   ++ match priv_apiKey this with
      | Some key =>
          if (key =? "")%string then []
          else [("Authorization", ("Bearer " ++ key)%string)]
      | None => []
      end)%list.

(** The query string of a request. *)
Definition query_of (options : RequestOptions) : string :=
  match query options with
  | Some q => toQueryString q
  | None => ""
  end.

(** The request that [#request] hands to [fetch]. *)
Definition wire_request (this : SoroScanClient) (method : Method) (path : string)
    (options : RequestOptions) : Request :=
  mkRequest (priv_baseUrl this ++ path ++ query_of options)
    (mkInit method (headers_of this)
       (match body options with
        | JUndefined => None
        | b => Some (JSON_stringify b)
        end)).

(** The error thrown when the timer fired. *)
Definition timeout_error (this : SoroScanClient) : Thrown :=
  ErrorObject "Error"
    ("SoroScanClient: request timed out after "
       ++ String_of_number (priv_timeoutMs this) ++ "ms").

(** The error body synthesised from the status line. *)
Definition fallback_body (r : Response) : JsValue :=
  JObj [("code", JStr "UNKNOWN_ERROR");
        ("message", JStr ("HTTP " ++ String_of_number (status r) ++ " " ++ statusText r))].

(** [err instanceof Error && err.name === "AbortError"] *)
Definition is_abort_error (err : Thrown) : bool :=
  (instanceof_Error err && strict_equals_string (name_of err) "AbortError")%bool.

(** What [#request] makes of the way its [fetch] settled. *)
Definition settle (this : SoroScanClient) (res : FetchResult) : Completion JsValue :=
  match res with
  | TimerFired => Throw (timeout_error this)
  | Failed err => if is_abort_error err then Throw (timeout_error this) else Throw err
  | Fetched r =>
      if status r =? 204 then Normal JUndefined
      else
        let json := match json_outcome r with Some v => v | None => JNull end in
        if ok r then Normal json
        else Throw (ApiError (new_SoroScanError (status r)
                                (coalesce json (fallback_body r))))
  end.

(** The path each method passes to [#request]. *)
Definition path_of (call : Call) : string :=
  match call with
  | GetEvents _ => "/v1/events"
  | GetContracts _ => "/v1/contracts"
  | GetContract params => "/v1/contracts/" ++ encodeURIComponent (contractId params)
  | GetTransactions _ => "/v1/transactions"
  | GetTransaction txHash => "/v1/transactions/" ++ encodeURIComponent txHash
  | GetLedgers _ => "/v1/ledgers"
  | GetLedger sequence => "/v1/ledgers/" ++ String_of_number sequence
  | GetAccount params => "/v1/accounts/" ++ encodeURIComponent (accountId params)
  | SubscribeWebhook _ => "/v1/webhooks"
  | ListWebhooks => "/v1/webhooks"
  | GetWebhook webhookId => "/v1/webhooks/" ++ encodeURIComponent webhookId
  | UpdateWebhook webhookId _ => "/v1/webhooks/" ++ encodeURIComponent webhookId
  | DeleteWebhook webhookId => "/v1/webhooks/" ++ encodeURIComponent webhookId
  end.

(** The HTTP verb each method passes to [#request]. *)
Definition verb_of (call : Call) : Method :=
  match call with
  | SubscribeWebhook _ => POST
  | UpdateWebhook _ _ => PATCH
  | DeleteWebhook _ => DELETE
  | _ => GET
  end.

(** The options each method passes to [#request]. *)
Definition options_of (call : Call) : RequestOptions :=
  match call with
  | GetEvents params | GetContracts params
  | GetTransactions params | GetLedgers params =>
      mkOptions (Some (or_empty params)) JUndefined
  | SubscribeWebhook params | UpdateWebhook _ params => mkOptions None params
  | _ => no_options
  end.

(** The request issued by a call. *)
Definition request_of (this : SoroScanClient) (call : Call) : Request :=
  wire_request this (verb_of call) (path_of call) (options_of call).

(** The state of the world after a series of calls on one client, each
    settled by the network whatever way it is. *)
Fixpoint run_calls (this : SoroScanClient) (calls : list Call) (w : World) : World :=
  match calls with
  | [] => w
  | call :: later => run_calls this later (snd (invoke this call w))
  end.



(** A network on which every request settles the same way. *)
Definition always (res : FetchResult) : World :=
  mkWorld [] (fun _ _ => res) [] 0.

(** A client of the public endpoint, without and with a key. *)
Definition anonymous_client : SoroScanClient :=
  mkClient "https://api.soroscan.io" None 30000.

Definition keyed_client : SoroScanClient :=
  mkClient "https://api.soroscan.io" (Some "my-api-key") 30000.

(** The URLs and the header lists of the requests that [m] issues from [w]. *)
Definition urls_issued {A} (m : M A) (w : World) : list string :=
  map req_url (issued m w).

Definition headers_issued {A} (m : M A) (w : World) : list (list (string * string)) :=
  map (fun req => init_headers (req_init req)) (issued m w).

End Run.

(* ------------------------------------------------------------------------- *)
(** * Views of a request, for the further properties of [client.ts] *)
(* ------------------------------------------------------------------------- *)

Module Shape.
Import Js Net Client Wire Run.

(** The characters a serialised query is made of: those the form serialiser
    leaves alone, and [+ % = &]. *)
Definition query_safe (c : ascii) : bool :=
  (is_alphanumeric c || one_of "*-._+%=&" c)%bool.

(** The six methods that take a string identifier, as calls on [id], each
    with the prefix of its path. *)
Definition by_id_calls (id : string) (params : JsValue) : list (Call * string) :=
  [(GetContract {| contractId := id |}, "/v1/contracts/");
   (GetTransaction id, "/v1/transactions/");
   (GetAccount {| accountId := id |}, "/v1/accounts/");
   (GetWebhook id, "/v1/webhooks/");
   (UpdateWebhook id params, "/v1/webhooks/");
   (DeleteWebhook id, "/v1/webhooks/")].

(** What of a request does not lie in its headers: URL, verb and body. *)
Definition line_and_body (req : Request) : string * Method * option string :=
  (req_url req, init_method (req_init req), init_body (req_init req)).

(** The pairs that [toQueryString] serialises. *)
Definition present_pairs (params : Entries) : list (string * string) :=
  map (fun kv => (fst kv, String_ (snd kv)))
      (filter present (Object_entries params)).

(** Every value of the mapping is [undefined] or [null]. *)
Definition all_nullish (params : Entries) : bool :=
  forallb (fun kv => nullish (snd kv)) params.

(** The four list methods, as calls on their parameter bag. *)
Definition list_methods : list (option Entries -> Call) :=
  [GetEvents; GetContracts; GetTransactions; GetLedgers].

End Shape.

(* ------------------------------------------------------------------------- *)
(** * The platform functions on small inputs *)
(* ------------------------------------------------------------------------- *)

Example ex_String_bool : Js.String_ (Js.JBool true) = "true".
Proof. reflexivity. Qed.
Example ex_String_num : Js.String_ (Js.JNum 50) = "50".
Proof. reflexivity. Qed.
Example ex_String_safe : Js.String_of_number 9007199254740991 = "9007199254740991".
Proof. reflexivity. Qed.
Example ex_String_rounded : Js.String_of_number 9007199254740993 = "9007199254740992".
Proof. vm_compute. reflexivity. Qed.
Example ex_String_shortest : Js.String_of_number 1152921504606846976 = "1152921504606847000".
Proof. vm_compute. reflexivity. Qed.
Example ex_String_below_1e21 : Js.String_of_number 999999999999999999999 = "1e+21".
Proof. vm_compute. reflexivity. Qed.
Example ex_String_exponent :
  Js.String_of_number (-123456789012345678901234567890) = "-1.2345678901234568e+29".
Proof. vm_compute. reflexivity. Qed.
Example ex_String_infinite : Js.String_of_number (10 ^ 400) = "Infinity".
Proof. vm_compute. reflexivity. Qed.
Example ex_array_index :
  map Js.array_index ["0"; "7"; "01"; "4294967294"; "4294967295"; "-1"; "1e3"; ""]
  = [Some 0%N; Some 7%N; None; Some 4294967294%N; None; None; None; None].
Proof. reflexivity. Qed.
Example ex_Object_entries :
  Js.Object_entries [("b", Js.JNum 1); ("10", Js.JNull); ("a", Js.JNull); ("9", Js.JNum 2)]
  = [("9", Js.JNum 2); ("10", Js.JNull); ("b", Js.JNum 1); ("a", Js.JNull)].
Proof. reflexivity. Qed.
Example ex_String_arr :
  Js.String_ (Js.JArr [Js.JNum 1; Js.JNull; Js.JStr "a"]) = "1,,a".
Proof. reflexivity. Qed.
Example ex_encode_slash : Js.encodeURIComponent "a/b c" = "a%2Fb%20c".
Proof. reflexivity. Qed.
Example ex_form : Js.URLSearchParams_toString [("a b", "x&y"); ("k", "1")] = "a+b=x%26y&k=1".
Proof. reflexivity. Qed.
Example ex_slash1 : Js.replace_trailing_slash "https://api.soroscan.io/" = "https://api.soroscan.io".
Proof. reflexivity. Qed.
Example ex_slash2 : Js.replace_trailing_slash "https://api.soroscan.io//" = "https://api.soroscan.io/".
Proof. reflexivity. Qed.
Example ex_json :
  Js.JSON_stringify (Js.JObj [("url", Js.JStr "u"); ("x", Js.JUndefined); ("n", Js.JArr [Js.JNum 1; Js.JBool false])])
  = String "{" (String "034" ("url" ++ String "034" (":" ++ String "034" ("u" ++ String "034" ("," ++ String "034" ("n" ++ String "034" ":[1,false]}")))))).
Proof. reflexivity. Qed.
Example ex_parse :
  Wire.parse_urlencoded "a+b=x%26y&k=1" = [("a b", "x&y"); ("k", "1")].
Proof. reflexivity. Qed.
Example ex_parse_empty : Wire.parse_urlencoded "" = [].
Proof. reflexivity. Qed.
Example ex_decode : Wire.percent_decode "a%2Fb%20c%zz%" = "a/b c%zz%".
Proof. reflexivity. Qed.

(* ------------------------------------------------------------------------- *)
(** * Facts about strings and the encoders *)
(* ------------------------------------------------------------------------- *)

Section StringFacts.
Import Js Wire.

Lemma append_assoc (a b c : string) : (a ++ b) ++ c = a ++ b ++ c.
Proof. induction a as [|x a IH]; simpl; [reflexivity | now rewrite IH]. Qed.

Lemma append_empty_r (a : string) : a ++ "" = a.
Proof. induction a as [|x a IH]; simpl; [reflexivity | now rewrite IH]. Qed.

Lemma all_chars_app (p : ascii -> bool) (a b : string) :
  all_chars p (a ++ b) = (all_chars p a && all_chars p b)%bool.
Proof.
  induction a as [|x a IH]; simpl; [reflexivity |].
  now rewrite IH, andb_assoc.
Qed.

Lemma plus_to_space_app (a b : string) :
  plus_to_space (a ++ b) = plus_to_space a ++ plus_to_space b.
Proof. induction a as [|x a IH]; simpl; [reflexivity | now rewrite IH]. Qed.

(** One encoded byte decodes to the byte it came from. *)
Lemma percent_decode_uri_byte (c : ascii) (rest : string) :
  percent_decode
    ((if uri_unreserved c then String c EmptyString else percent_byte c) ++ rest)
  = String c (percent_decode rest).
Proof.
  destruct c as [[|] [|] [|] [|] [|] [|] [|] [|]]; reflexivity.
Qed.

Lemma decode_form_byte (c : ascii) (rest : string) :
  percent_decode (plus_to_space (form_byte c) ++ rest)
  = String c (percent_decode rest).
Proof.
  destruct c as [[|] [|] [|] [|] [|] [|] [|] [|]]; reflexivity.
Qed.


Lemma form_byte_clean (c : ascii) : all_chars not_amp_eq (form_byte c) = true.
Proof.
  destruct c as [[|] [|] [|] [|] [|] [|] [|] [|]]; reflexivity.
Qed.

Lemma percent_decode_encodeURIComponent (s : string) :
  percent_decode (encodeURIComponent s) = s.
Proof.
  induction s as [|c s IH]; simpl; [reflexivity |].
  now rewrite percent_decode_uri_byte, IH.
Qed.


Lemma decode_form_urlencode (s : string) :
  decode_component (form_urlencode s) = s.
Proof.
  unfold decode_component.
  induction s as [|c s IH]; simpl; [reflexivity |].
  now rewrite plus_to_space_app, decode_form_byte, IH.
Qed.

Lemma form_urlencode_clean (s : string) :
  all_chars not_amp_eq (form_urlencode s) = true.
Proof.
  induction s as [|c s IH]; simpl; [reflexivity |].
  now rewrite all_chars_app, form_byte_clean, IH.
Qed.

End StringFacts.

Section ParsingFacts.
Import Js Wire.

Lemma all_chars_weaken (p q : ascii -> bool) (s : string) :
  (forall c, p c = true -> q c = true) ->
  all_chars p s = true -> all_chars q s = true.
Proof.
  intros Hpq. induction s as [|c s IH]; simpl; [reflexivity |].
  intros H. apply andb_true_iff in H. destruct H as [Hc Hs].
  now rewrite (Hpq c Hc), (IH Hs).
Qed.

Lemma not_amp_eq_amp (c : ascii) : not_amp_eq c = true -> differs_from "&" c = true.
Proof. unfold not_amp_eq, differs_from. intros H. now apply andb_true_iff in H. Qed.

Lemma not_amp_eq_eq (c : ascii) : not_amp_eq c = true -> differs_from "=" c = true.
Proof. unfold not_amp_eq, differs_from. intros H. now apply andb_true_iff in H. Qed.

Lemma cut_at_first_app (sep : ascii) (a b : string) :
  all_chars (differs_from sep) a = true ->
  cut_at_first sep (a ++ String sep b) = (a, b).
Proof.
  induction a as [|c a IH]; simpl.
  - intros _. now rewrite Ascii.eqb_refl.
  - intros H. apply andb_true_iff in H. destruct H as [Hc Ha].
    unfold differs_from in Hc. apply negb_true_iff in Hc.
    now rewrite Hc, (IH Ha).
Qed.

Lemma split_on_clean (sep : ascii) (a : string) :
  all_chars (differs_from sep) a = true -> split_on sep a = [a].
Proof.
  induction a as [|c a IH]; simpl; [reflexivity |].
  intros H. apply andb_true_iff in H. destruct H as [Hc Ha].
  unfold differs_from in Hc. apply negb_true_iff in Hc.
  now rewrite Hc, (IH Ha).
Qed.

Lemma split_on_app (sep : ascii) (a b : string) :
  all_chars (differs_from sep) a = true ->
  split_on sep (a ++ String sep b) = a :: split_on sep b.
Proof.
  induction a as [|c a IH]; simpl.
  - intros _. now rewrite Ascii.eqb_refl.
  - intros H. apply andb_true_iff in H. destruct H as [Hc Ha].
    unfold differs_from in Hc. apply negb_true_iff in Hc.
    now rewrite Hc, (IH Ha).
Qed.

Lemma split_on_join (sep : ascii) (pieces : list string) :
  pieces <> [] ->
  Forall (fun p => all_chars (differs_from sep) p = true) pieces ->
  split_on sep (join (String sep EmptyString) pieces) = pieces.
Proof.
  induction pieces as [|x rest IH]; [congruence |].
  intros _ Hall. inversion Hall as [|x' rest' Hx Hrest]; subst.
  destruct rest as [|y rest].
  - simpl. now apply split_on_clean.
  - change (join (String sep EmptyString) (x :: y :: rest))
      with (x ++ String sep (join (String sep EmptyString) (y :: rest))).
    rewrite (split_on_app _ _ _ Hx). f_equal.
    apply IH; [congruence | assumption].
Qed.

Lemma form_pair_no_amp (kv : string * string) :
  all_chars (differs_from "&") (form_pair kv) = true.
Proof.
  unfold form_pair. rewrite !all_chars_app.
  rewrite !(all_chars_weaken _ _ _ not_amp_eq_amp (form_urlencode_clean _)).
  reflexivity.
Qed.

Lemma form_pair_nonempty (kv : string * string) :
  (form_pair kv =? "")%string = false.
Proof.
  unfold form_pair. destruct (form_urlencode (fst kv)); reflexivity.
Qed.

Lemma read_form_pair (kv : string * string) :
  (let (n, v) := cut_at_first "=" (form_pair kv) in
   (decode_component n, decode_component v)) = kv.
Proof.
  unfold form_pair.
  change ("=" ++ form_urlencode (snd kv)) with (String "=" (form_urlencode (snd kv))).
  rewrite cut_at_first_app
    by exact (all_chars_weaken _ _ _ not_amp_eq_eq (form_urlencode_clean _)).
  rewrite !decode_form_urlencode. now destruct kv.
Qed.

(** The parser reads back exactly the pairs that were serialised. *)
Lemma parse_URLSearchParams (pairs : list (string * string)) :
  parse_urlencoded (URLSearchParams_toString pairs) = pairs.
Proof.
  destruct pairs as [|p pairs]; [reflexivity |].
  unfold parse_urlencoded, URLSearchParams_toString.
  change (fun kv : string * string =>
            form_urlencode (fst kv) ++ "=" ++ form_urlencode (snd kv))
    with form_pair.
  change "&" with (String "&"%char EmptyString) at 1.
  rewrite split_on_join.
  - generalize (p :: pairs). intros l.
    induction l as [|q l IH]; simpl; [reflexivity |].
    rewrite form_pair_nonempty. simpl.
    rewrite IH. f_equal. apply read_form_pair.
  - discriminate.
  - apply Forall_forall. intros x Hx. apply in_map_iff in Hx.
    destruct Hx as [kv [<- _]]. apply form_pair_no_amp.
Qed.

End ParsingFacts.

Section RunFacts.
Import Js Net Client Run.

Lemma skipn_length_app {A} (l : list A) (x : A) :
  skipn (List.length l) (l ++ [x])%list = [x].
Proof. induction l as [|y l IH]; simpl; [reflexivity | exact IH]. Qed.

(** [#request] issues one request and completes as [settle] says. *)
Lemma request_run (this : SoroScanClient) (method : Method) (path : string)
    (options : RequestOptions) (w : World) :
  request this method path options w =
  (settle this (network w (sent w) (wire_request this method path options)),
   mkWorld (sent w ++ [wire_request this method path options])%list (network w)
           (timers w) (S (next_timer w))).
Proof.
  assert (Hh : (match priv_apiKey this with
                | Some key =>
                    if truthy_string key
                    then ([("Content-Type", "application/json");
                           ("Accept", "application/json")]
                            ++ [("Authorization", ("Bearer " ++ key)%string)])%list
                    else [("Content-Type", "application/json");
                          ("Accept", "application/json")]
                | None => [("Content-Type", "application/json");
                           ("Accept", "application/json")]
                end) = headers_of this).
  { unfold headers_of, truthy_string.
    destruct (priv_apiKey this) as [key|]; [|reflexivity].
    destruct (key =? "")%string; reflexivity. }
  unfold request, bind, try_finally, try_catch, fetch, setTimeout, clearTimeout,
    wire_request, query_of.
  cbv zeta. rewrite Hh.
  cbn [sent network timers next_timer].
  destruct (network w (sent w) _) as [r | | err];
    cbn [settle sent network timers next_timer disarm].
  - rewrite Nat.eqb_refl.
    destruct (status r =? 204); [reflexivity |].
    unfold Response_json, throw, ret.
    destruct (json_outcome r) as [v|]; destruct (ok r); reflexivity.
  - unfold throw.
    cbn [instanceof_Error name_of strict_equals_string AbortError andb String.eqb
         Ascii.eqb Bool.eqb sent network timers next_timer disarm].
    now rewrite Nat.eqb_refl.
  - unfold is_abort_error, throw.
    destruct (instanceof_Error err && _)%bool;
      cbn [sent network timers next_timer disarm];
      now rewrite Nat.eqb_refl.
Qed.

Lemma invoke_request (this : SoroScanClient) (call : Call) :
  invoke this call = request this (verb_of call) (path_of call) (options_of call).
Proof. destruct call; reflexivity. Qed.

Lemma invoke_run (this : SoroScanClient) (call : Call) (w : World) :
  invoke this call w =
  (settle this (network w (sent w) (request_of this call)),
   mkWorld (sent w ++ [request_of this call])%list (network w)
           (timers w) (S (next_timer w))).
Proof. rewrite invoke_request. apply request_run. Qed.

(** The timer armed by a call is disarmed when the call completes, however
    it completes. *)
Lemma invoke_disarms_timer (this : SoroScanClient) (call : Call) (w : World) :
  timers (snd (invoke this call w)) = timers w.
Proof. now rewrite invoke_run. Qed.

Lemma invoke_issued (this : SoroScanClient) (call : Call) (w : World) :
  issued (invoke this call) w = [request_of this call].
Proof. unfold issued. rewrite invoke_run. simpl. apply skipn_length_app. Qed.

Lemma invoke_answer (this : SoroScanClient) (call : Call) (w : World) :
  answer (invoke this call) w = Some (network w (sent w) (request_of this call)).
Proof. unfold answer. now rewrite invoke_issued. Qed.

Lemma invoke_outcome (this : SoroScanClient) (call : Call) (w : World)
    (res : FetchResult) :
  answer (invoke this call) w = Some res ->
  outcome (invoke this call) w = settle this res.
Proof.
  rewrite invoke_answer. intros H. injection H as <-.
  unfold outcome. now rewrite invoke_run.
Qed.

End RunFacts.

(* ------------------------------------------------------------------------- *)
(** * Construction *)
(* ------------------------------------------------------------------------- *)

Section Construction.
Import Js Net Client Wire Run.

Lemma skipn_length_self {A} (l : list A) : skipn (List.length l) l = [].
Proof. induction l as [|x l IH]; simpl; [reflexivity | exact IH]. Qed.

Lemma constructor_world (config : SoroScanClientConfig) (w : World) :
  snd (constructor config w) = w.
Proof.
  unfold constructor. destruct (negb _); reflexivity.
Qed.

Lemma constructor_fields (config : SoroScanClientConfig) (this : SoroScanClient)
    (w w' : World) :
  constructor config w = (Normal this, w') ->
  priv_baseUrl this = replace_trailing_slash (baseUrl config)
  /\ priv_apiKey this = apiKey config
  /\ priv_timeoutMs this = match timeoutMs config with
                           | Some ms => ms
                           | None => 30000
                           end.
Proof.
  unfold constructor. destruct (negb _); unfold throw, ret; intros H.
  - discriminate.
  - injection H as <- _. simpl. auto.
Qed.

(** C8. Constructing a client with [baseUrl: ""] throws, in the constructor
    itself, the error "SoroScanClient: baseUrl is required"; the construction
    issues no request and leaves the world as it was. *)
Theorem C8_empty_baseUrl_fails_at_construction :
  forall (key : option string) (ms : option Z) (w : World),
    constructor (mkConfig "" key ms) w
    = (Throw (ErrorObject "Error" "SoroScanClient: baseUrl is required"), w)
    /\ issued (constructor (mkConfig "" key ms)) w = [].
Proof.
  intros key ms w. split; [reflexivity |].
  unfold issued. rewrite constructor_world. apply skipn_length_self.
Qed.

Lemma replace_trailing_slash_spec (s : string) :
  if ends_with "/" s then s = replace_trailing_slash s ++ "/"
  else replace_trailing_slash s = s.
Proof.
  induction s as [|c s IH]; [reflexivity |].
  destruct s as [|d s].
  - simpl. destruct (Ascii.eqb_spec c "/") as [-> |]; reflexivity.
  - change (replace_trailing_slash (String c (String d s)))
      with (String c (replace_trailing_slash (String d s))).
    change (ends_with "/" (String c (String d s)))
      with (ends_with "/" (String d s)).
    destruct (ends_with "/" (String d s)).
    + change (String c (String d s)
              = String c (replace_trailing_slash (String d s) ++ "/")).
      now rewrite <- IH.
    + now rewrite IH.
Qed.

Lemma replace_trailing_slash_leaves_slash (s : string) :
  ends_with "/" (replace_trailing_slash s) = true ->
  exists s', s = s' ++ "//".
Proof.
  induction s as [|c s IH]; [discriminate |].
  destruct s as [|d s].
  - simpl. destruct (c =? "/")%char eqn:E; simpl; [discriminate |].
    now rewrite E.
  - change (replace_trailing_slash (String c (String d s)))
      with (String c (replace_trailing_slash (String d s))).
    destruct (replace_trailing_slash (String d s)) as [|e t] eqn:Hr.
    + simpl. intros Hc. apply Ascii.eqb_eq in Hc. subst c.
      pose proof (replace_trailing_slash_spec (String d s)) as H.
      rewrite Hr in H.
      destruct (ends_with "/" (String d s)); [| discriminate].
      exists "". now rewrite H.
    + intros H.
      assert (Hend : ends_with "/" (String e t) = true) by exact H.
      destruct (IH Hend) as [s' Hs']. exists (String c s'). simpl. now rewrite Hs'.
Qed.

Lemma invoke_urls (this : SoroScanClient) (call : Call) (w : World) :
  urls_issued (invoke this call) w =
  [priv_baseUrl this ++ path_of call ++ query_of (options_of call)].
Proof. unfold urls_issued. now rewrite invoke_issued. Qed.

Lemma invoke_headers (this : SoroScanClient) (call : Call) (w : World) :
  headers_issued (invoke this call) w = [headers_of this].
Proof. unfold headers_issued. now rewrite invoke_issued. Qed.

(** C7, as amended. The constructor removes one trailing slash of the base
    URL, if there is one, and no more.  Every method requests the stored
    base followed by the path of its endpoint, which starts with a slash,
    and by the query string.  The stored base still ends in a slash only
    when the configured base URL ends in two slashes. *)
Theorem C7_base_url_normalisation :
  forall (config : SoroScanClientConfig) (this : SoroScanClient)
         (call : Call) (w0 w0' w : World),
    constructor config w0 = (Normal this, w0') ->
    urls_issued (invoke this call) w =
      [replace_trailing_slash (baseUrl config) ++ path_of call
         ++ query_of (options_of call)]
    /\ (exists rest, path_of call = String "/" rest)
    /\ (if ends_with "/" (baseUrl config)
        then baseUrl config = replace_trailing_slash (baseUrl config) ++ "/"
        else replace_trailing_slash (baseUrl config) = baseUrl config)
    /\ (ends_with "/" (replace_trailing_slash (baseUrl config)) = true ->
        exists s, baseUrl config = s ++ "//").
Proof.
  intros config this call w0 w0' w Hnew.
  destruct (constructor_fields _ _ _ _ Hnew) as [Hbase _].
  split; [rewrite invoke_urls, Hbase; reflexivity |].
  split; [destruct call; eexists; reflexivity |].
  split; [apply replace_trailing_slash_spec |].
  apply replace_trailing_slash_leaves_slash.
Qed.

Lemma C7_witness :
  urls_issued (getEvents anonymous_client (Some [("first", JNum 50)]))
              (always TimerFired)
  = ["https://api.soroscan.io/v1/events?first=50"].
Proof.
  exact (proj1 (C7_base_url_normalisation
                  (mkConfig "https://api.soroscan.io/" None None)
                  anonymous_client
                  (GetEvents (Some [("first", JNum 50)]))
                  (always TimerFired) (always TimerFired) (always TimerFired)
                  eq_refl)).
Defined.

(** C7, as stated, fails: a base URL that ends in two slashes is accepted,
    the client built from it keeps a trailing slash in its base, and the URL
    it requests has a double slash before the path. *)
Lemma C7_counterexample :
  constructor (mkConfig "https://api.soroscan.io//" None None) (always TimerFired)
  = (Normal (mkClient "https://api.soroscan.io/" None 30000), always TimerFired)
  /\ ends_with "/" (priv_baseUrl (mkClient "https://api.soroscan.io/" None 30000)) = true
  /\ urls_issued (listWebhooks (mkClient "https://api.soroscan.io/" None 30000))
                 (always TimerFired)
     = ["https://api.soroscan.io//v1/webhooks"].
Proof. repeat split. Qed.

(** C4, as amended. Every request of every method carries exactly
    [Content-Type: application/json] and [Accept: application/json], followed
    by [Authorization: Bearer <key>] if and only if the client was configured
    with an [apiKey] that is not the empty string. *)
Theorem C4_request_headers :
  forall (config : SoroScanClientConfig) (this : SoroScanClient)
         (call : Call) (w0 w0' w : World),
    constructor config w0 = (Normal this, w0') ->
    exists hs : list (string * string),
      headers_issued (invoke this call) w = [hs]
      /\ hs = ([("Content-Type", "application/json"); ("Accept", "application/json")]
               ++ match apiKey config with
                  | Some key =>
                      if (key =? "")%string then []
                      else [("Authorization", ("Bearer " ++ key)%string)]
                  | None => []
                  end)%list
      /\ (forall v, In ("Authorization", v) hs <->
                    exists key, apiKey config = Some key /\ key <> ""
                                /\ v = "Bearer " ++ key).
Proof.
  intros config this call w0 w0' w Hnew.
  destruct (constructor_fields _ _ _ _ Hnew) as [_ [Hkey _]].
  exists (headers_of this).
  split; [apply invoke_headers |].
  unfold headers_of. rewrite Hkey.
  split; [reflexivity |].
  intros v. destruct (apiKey config) as [key|].
  - destruct (String.eqb_spec key "") as [-> | Hne]; simpl.
    + split.
      * intros [H | [H | []]]; discriminate.
      * intros [key [H [Hne _]]]. injection H as <-. now destruct Hne.
    + split.
      * intros [H | [H | [H | []]]]; try discriminate.
        injection H as <-. now exists key.
      * intros [key' [H [_ ->]]]. injection H as <-. auto.
  - simpl. split.
    + intros [H | [H | []]]; discriminate.
    + intros [key [H _]]. discriminate.
Qed.

Lemma C4_witness :
  headers_issued (getEvents keyed_client None) (always TimerFired)
  = [[("Content-Type", "application/json"); ("Accept", "application/json");
      ("Authorization", "Bearer my-api-key")]].
Proof.
  destruct (C4_request_headers
              (mkConfig "https://api.soroscan.io" (Some "my-api-key") None)
              keyed_client (GetEvents None)
              (always TimerFired) (always TimerFired) (always TimerFired) eq_refl)
    as [hs [Hissued [Hhs _]]].
  rewrite Hhs in Hissued. exact Hissued.
Defined.

(** C4, as stated, fails: a client configured with the empty string as its
    [apiKey] sends no [Authorization] header. *)
Lemma C4_counterexample :
  constructor (mkConfig "https://api.soroscan.io" (Some "") None) (always TimerFired)
  = (Normal (mkClient "https://api.soroscan.io" (Some "") 30000), always TimerFired)
  /\ headers_issued (listWebhooks (mkClient "https://api.soroscan.io" (Some "") 30000))
                    (always TimerFired)
     = [[("Content-Type", "application/json"); ("Accept", "application/json")]]
  /\ headers_issued (listWebhooks (mkClient "https://api.soroscan.io" (Some "") 30000))
                    (always TimerFired)
     <> [[("Content-Type", "application/json"); ("Accept", "application/json");
          ("Authorization", "Bearer ")]].
Proof.
  split; [reflexivity |]. split; [reflexivity |]. vm_compute. discriminate.
Qed.

End Construction.

(* ------------------------------------------------------------------------- *)
(** * Response handling *)
(* ------------------------------------------------------------------------- *)

Section Responses.
Import Js Net Client Wire Run.

(** C5. Whatever the method, when the server answers with status 204 the
    call completes normally with [undefined]; [deleteWebhook this id] is the
    case [invoke this (DeleteWebhook id)]. *)
Theorem C5_no_content_yields_undefined :
  forall (this : SoroScanClient) (call : Call) (w : World) (r : Response),
    answer (invoke this call) w = Some (Fetched r) ->
    status r = 204 ->
    outcome (invoke this call) w = Normal JUndefined.
Proof.
  intros this call w r Hans H204.
  rewrite (invoke_outcome _ _ _ _ Hans). simpl. now rewrite H204.
Qed.

Lemma C5_witness :
  outcome (deleteWebhook keyed_client "wh_001")
          (always (Fetched (mkResponse 204 "No Content" None)))
  = Normal JUndefined.
Proof.
  apply (C5_no_content_yields_undefined keyed_client (DeleteWebhook "wh_001")
           (always (Fetched (mkResponse 204 "No Content" None)))
           (mkResponse 204 "No Content" None)); reflexivity.
Defined.

(** C9. When the server answers with a success status other than 204 and the
    body does not parse as JSON, the call completes normally with [null]: no
    error is thrown, and the call has issued one request only. *)
Theorem C9_unparsable_success_body_yields_null :
  forall (this : SoroScanClient) (call : Call) (w : World) (r : Response),
    answer (invoke this call) w = Some (Fetched r) ->
    ok r = true ->
    status r <> 204 ->
    json_outcome r = None ->
    outcome (invoke this call) w = Normal JNull
    /\ List.length (issued (invoke this call) w) = 1%nat.
Proof.
  intros this call w r Hans Hok H204 Hjson. split.
  - rewrite (invoke_outcome _ _ _ _ Hans). simpl.
    apply Z.eqb_neq in H204. now rewrite H204, Hjson, Hok.
  - now rewrite invoke_issued.
Qed.

Lemma C9_witness :
  outcome (getEvents anonymous_client None)
          (always (Fetched (mkResponse 200 "OK" None)))
  = Normal JNull
  /\ List.length (issued (getEvents anonymous_client None)
                    (always (Fetched (mkResponse 200 "OK" None)))) = 1%nat.
Proof.
  apply (C9_unparsable_success_body_yields_null anonymous_client (GetEvents None)
           (always (Fetched (mkResponse 200 "OK" None)))
           (mkResponse 200 "OK" None)); [reflexivity | reflexivity | | reflexivity].
  simpl; lia.
Defined.





End Responses.

(* ------------------------------------------------------------------------- *)
(** * Property order *)
(* ------------------------------------------------------------------------- *)

Section OrderFacts.
Import Js.
Context {A : Type}.

Notation by_index := (fun x y : string * A => (index_of x <= index_of y)%N).

Lemma insert_by_index_perm (x : string * A) (l : list (string * A)) :
  Permutation (insert_by_index x l) (x :: l).
Proof.
  induction l as [|y l IH]; simpl; [reflexivity |].
  destruct (index_of x <=? index_of y)%N; [reflexivity |].
  rewrite IH. apply perm_swap.
Qed.

Lemma sort_by_index_perm (l : list (string * A)) :
  Permutation (sort_by_index l) l.
Proof.
  induction l as [|x l IH]; simpl; [reflexivity |].
  rewrite insert_by_index_perm. now constructor.
Qed.

Lemma filter_split_perm (f : string * A -> bool) (l : list (string * A)) :
  Permutation (filter f l ++ filter (fun kv => negb (f kv)) l)%list l.
Proof.
  induction l as [|x l IH]; simpl; [reflexivity |].
  destruct (f x); simpl.
  - now constructor.
  - rewrite <- Permutation_middle. now constructor.
Qed.

Lemma property_order_perm (l : list (string * A)) :
  Permutation (property_order l) l.
Proof.
  unfold property_order. rewrite sort_by_index_perm. apply filter_split_perm.
Qed.

Lemma insert_by_index_first (x : string * A) (l : list (string * A)) :
  Forall (by_index x) l -> insert_by_index x l = x :: l.
Proof.
  destruct l as [|y l]; [reflexivity |].
  intros H. inversion H as [|y' l' Hy _]; subst. simpl.
  apply N.leb_le in Hy. now rewrite Hy.
Qed.

Lemma insert_by_index_sorted (x : string * A) (l : list (string * A)) :
  StronglySorted by_index l -> StronglySorted by_index (insert_by_index x l).
Proof.
  induction l as [|y l IH]; simpl; intros Hs.
  - constructor; constructor.
  - inversion Hs as [|y' l' Hl Hy]; subst.
    destruct (index_of x <=? index_of y)%N eqn:E.
    + apply N.leb_le in E. constructor; [exact Hs |].
      constructor; [exact E |].
      eapply Forall_impl; [| exact Hy]. simpl. intros z Hz. lia.
    + apply N.leb_gt in E. constructor; [now apply IH |].
      apply (Permutation_Forall (Permutation_sym (insert_by_index_perm x l))).
      constructor; [lia | exact Hy].
Qed.

Lemma sort_by_index_sorted (l : list (string * A)) :
  StronglySorted by_index (sort_by_index l).
Proof.
  induction l as [|x l IH]; simpl; [constructor |].
  now apply insert_by_index_sorted.
Qed.

Lemma Forall_filter (P : string * A -> Prop) (f : string * A -> bool)
    (l : list (string * A)) :
  Forall P l -> Forall P (filter f l).
Proof.
  intros H. apply Forall_forall. intros z Hz. apply filter_In in Hz.
  rewrite Forall_forall in H. now apply H.
Qed.

Lemma filter_insert_by_index (f : string * A -> bool) (x : string * A)
    (l : list (string * A)) :
  StronglySorted by_index l ->
  filter f (insert_by_index x l)
  = if f x then insert_by_index x (filter f l) else filter f l.
Proof.
  induction l as [|y l IH]; intros Hs.
  - simpl. destruct (f x); reflexivity.
  - inversion Hs as [|y' l' Hl Hy]; subst. simpl.
    destruct (index_of x <=? index_of y)%N eqn:E.
    + simpl. destruct (f x); [| reflexivity].
      symmetry. apply insert_by_index_first.
      apply N.leb_le in E.
      assert (Hall : Forall (by_index x) (y :: l)).
      { constructor; [exact E |].
        eapply Forall_impl; [| exact Hy]. simpl. intros z Hz. lia. }
      exact (Forall_filter _ f _ Hall).
    + simpl. rewrite (IH Hl).
      destruct (f y); destruct (f x); simpl; try reflexivity.
      now rewrite E.
Qed.

Lemma filter_sort_by_index (f : string * A -> bool) (l : list (string * A)) :
  filter f (sort_by_index l) = sort_by_index (filter f l).
Proof.
  induction l as [|x l IH]; simpl; [reflexivity |].
  rewrite filter_insert_by_index by apply sort_by_index_sorted.
  destruct (f x); simpl; now rewrite IH.
Qed.

Lemma filter_swap (f g : string * A -> bool) (l : list (string * A)) :
  filter f (filter g l) = filter g (filter f l).
Proof.
  induction l as [|x l IH]; simpl; [reflexivity |].
  destruct (g x) eqn:G; destruct (f x) eqn:F; simpl;
    rewrite ?G, ?F, IH; reflexivity.
Qed.

(** Dropping properties and enumerating them can be done in either order. *)
Lemma filter_property_order (f : string * A -> bool) (l : list (string * A)) :
  filter f (property_order l) = property_order (filter f l).
Proof.
  unfold property_order.
  rewrite filter_app, filter_sort_by_index.
  now rewrite (filter_swap f is_index), (filter_swap f (fun kv => negb (is_index kv))).
Qed.


End OrderFacts.

(* ------------------------------------------------------------------------- *)
(** * The URL of a request *)
(* ------------------------------------------------------------------------- *)

Section Urls.
Import Js Net Client Wire Run.







Example ex_slash_in_identifier :
  urls_issued (getContract anonymous_client {| contractId := "CC/A?b" |})
              (always TimerFired)
  = ["https://api.soroscan.io/v1/contracts/CC%2FA%3Fb"].
Proof. reflexivity. Qed.



Lemma toQueryString_none (params : Entries) :
  filter present (Object_entries params) = [] -> toQueryString params = "".
Proof. unfold toQueryString. now intros ->. Qed.

Lemma toQueryString_some (params : Entries) :
  filter present (Object_entries params) <> [] ->
  toQueryString params =
  "?" ++ URLSearchParams_toString
           (map (fun kv => (fst kv, String_ (snd kv)))
                (filter present (Object_entries params))).
Proof.
  unfold toQueryString.
  destruct (filter present (Object_entries params)); [congruence | reflexivity].
Qed.

Lemma Object_entries_In (params : Entries) (kv : string * JsValue) :
  In kv (Object_entries params) <-> In kv params.
Proof.
  split; apply Permutation_in;
    [| apply Permutation_sym]; apply property_order_perm.
Qed.

Lemma present_entries_none (params : Entries) :
  (forall k v, In (k, v) params -> nullish v = true) ->
  filter present (Object_entries params) = [].
Proof.
  intros Hnull.
  destruct (filter present (Object_entries params)) as [|[k v] rest] eqn:Hf;
    [reflexivity |].
  assert (Hin : In (k, v) (filter present (Object_entries params)))
    by (rewrite Hf; now left).
  apply filter_In in Hin. destruct Hin as [Hin Hp].
  apply (proj1 (Object_entries_In _ _)) in Hin.
  unfold present in Hp. simpl in Hp. now rewrite (Hnull k v Hin) in Hp.
Qed.




End Urls.

(* ------------------------------------------------------------------------- *)
(** * Failures below HTTP, and independence of calls *)
(* ------------------------------------------------------------------------- *)

Section Failures.
Import Js Net Client Wire Run.

(** C3, as amended. When the timer of the call fires and aborts the
    request, the call throws an [Error] whose message is "SoroScanClient:
    request timed out after <ms>ms", with the configured duration (30000 by
    default) in it.  A rejection of [fetch] with any [Error] named
    [AbortError] is reported as that same error, whatever caused it.  Every
    other rejection is thrown on as the very value [fetch] rejected with; a
    network failure, which is a [TypeError], is therefore never mistaken for
    a timeout. *)
Theorem C3_timeout_and_transport_failure :
  forall (config : SoroScanClientConfig) (this : SoroScanClient) (call : Call)
         (w0 w0' w : World) (res : FetchResult),
    constructor config w0 = (Normal this, w0') ->
    answer (invoke this call) w = Some res ->
    (res = TimerFired ->
     exists msg : string,
       outcome (invoke this call) w = Throw (ErrorObject "Error" msg)
       /\ msg = "SoroScanClient: request timed out after "
                ++ String_of_number (match timeoutMs config with
                                     | Some ms => ms
                                     | None => 30000
                                     end) ++ "ms"
       /\ occurs_in (String_of_number (match timeoutMs config with
                                       | Some ms => ms
                                       | None => 30000
                                       end) ++ "ms") msg)
    /\ (forall err, res = Failed err -> is_abort_error err = true ->
                    outcome (invoke this call) w
                    = Throw (ErrorObject "Error"
                               ("SoroScanClient: request timed out after "
                                  ++ String_of_number (match timeoutMs config with
                                                       | Some ms => ms
                                                       | None => 30000
                                                       end) ++ "ms")))
    /\ (forall err, res = Failed err -> is_abort_error err = false ->
                    outcome (invoke this call) w = Throw err)
    /\ (forall err, res = Failed err -> name_of err = JStr "TypeError" ->
                    outcome (invoke this call) w = Throw err
                    /\ outcome (invoke this call) w <> Throw (timeout_error this)).
Proof.
  intros config this call w0 w0' w res Hnew Hans.
  destruct (constructor_fields _ _ _ _ Hnew) as [_ [_ Hms]].
  rewrite (invoke_outcome _ _ _ _ Hans).
  split; [| split; [| split]].
  - intros ->. eexists. split; [reflexivity |].
    unfold timeout_error. rewrite Hms. split; [reflexivity |].
    exists "SoroScanClient: request timed out after ", "".
    now rewrite append_empty_r.
  - intros err -> Ha. simpl. rewrite Ha. unfold timeout_error. now rewrite Hms.
  - intros err -> Hna. simpl. now rewrite Hna.
  - intros err -> Hname.
    assert (Hna : is_abort_error err = false).
    { unfold is_abort_error. rewrite Hname. simpl. apply andb_false_r. }
    simpl. rewrite Hna. split; [reflexivity |].
    intros H. injection H as H. subst err. discriminate.
Qed.

Lemma C3_witness :
  outcome (getEvents anonymous_client None) (always TimerFired)
  = Throw (ErrorObject "Error" "SoroScanClient: request timed out after 30000ms")
  /\ outcome (getEvents anonymous_client None)
             (always (Failed (ErrorObject "TypeError" "Failed to fetch")))
     = Throw (ErrorObject "TypeError" "Failed to fetch").
Proof.
  split.
  - destruct (proj1 (C3_timeout_and_transport_failure
                       (mkConfig "https://api.soroscan.io" None None)
                       anonymous_client (GetEvents None)
                       (always TimerFired) (always TimerFired) (always TimerFired)
                       TimerFired eq_refl eq_refl) eq_refl)
      as [msg [Hout [Hmsg _]]].
    rewrite Hmsg in Hout. exact Hout.
  - exact (proj1 (proj2 (proj2 (C3_timeout_and_transport_failure
                    (mkConfig "https://api.soroscan.io" None None)
                    anonymous_client (GetEvents None)
                    (always TimerFired) (always TimerFired)
                    (always (Failed (ErrorObject "TypeError" "Failed to fetch")))
                    (Failed (ErrorObject "TypeError" "Failed to fetch"))
                    eq_refl eq_refl)))
             (ErrorObject "TypeError" "Failed to fetch") eq_refl eq_refl).
Defined.

(** C3, as stated, fails: a failure of [fetch] that is not the firing of the
    call's timer but is an [Error] named [AbortError] does not reach the
    caller unchanged; it is replaced by the timeout error. *)
Lemma C3_counterexample :
  answer (getEvents anonymous_client None)
         (always (Failed (ErrorObject "AbortError" "The user aborted a request.")))
  = Some (Failed (ErrorObject "AbortError" "The user aborted a request."))
  /\ outcome (getEvents anonymous_client None)
       (always (Failed (ErrorObject "AbortError" "The user aborted a request.")))
     = Throw (ErrorObject "Error" "SoroScanClient: request timed out after 30000ms")
  /\ outcome (getEvents anonymous_client None)
       (always (Failed (ErrorObject "AbortError" "The user aborted a request.")))
     <> Throw (ErrorObject "AbortError" "The user aborted a request.").
Proof.
  split; [reflexivity |]. split; [reflexivity |]. vm_compute. discriminate.
Qed.

Lemma run_calls_network (this : SoroScanClient) (prior : list Call) (w : World) :
  network (run_calls this prior w) = network w.
Proof.
  revert w. induction prior as [|call prior IH]; intros w; simpl; [reflexivity |].
  rewrite IH, invoke_run. reflexivity.
Qed.

(** C10. The outcome of a call and the request it issues are determined by
    the client, the call and the way the network settles that request:
    whatever calls were made before on the same client, and whatever the
    history of the world, a call that is settled the same way completes the
    same way.  Construction is determined by the configuration alone, and no
    call changes how the network behaves. *)
Theorem C10_calls_are_deterministic_and_stateless :
  forall (config : SoroScanClientConfig) (this : SoroScanClient) (call : Call)
         (prior : list Call) (w1 w2 : World),
    answer (invoke this call) (run_calls this prior w1)
      = answer (invoke this call) w2 ->
    outcome (invoke this call) (run_calls this prior w1)
      = outcome (invoke this call) w2
    /\ issued (invoke this call) (run_calls this prior w1)
       = issued (invoke this call) w2
    /\ outcome (constructor config) w1 = outcome (constructor config) w2
    /\ network (run_calls this prior w1) = network w1.
Proof.
  intros config this call prior w1 w2 Hans.
  split; [| split; [| split]].
  - destruct (answer (invoke this call) w2) as [res|] eqn:H2.
    + now rewrite (invoke_outcome _ _ _ _ Hans), (invoke_outcome _ _ _ _ H2).
    + rewrite invoke_answer in H2. discriminate.
  - now rewrite !invoke_issued.
  - unfold outcome, constructor. destruct (negb _); reflexivity.
  - apply run_calls_network.
Qed.

Lemma C10_witness :
  outcome (getContract keyed_client {| contractId := "CCAAA" |})
          (run_calls keyed_client [DeleteWebhook "wh_001"; GetEvents None]
             (always (Fetched (mkResponse 200 "OK" (Some (JObj [("id", JStr "CCAAA")]))))))
  = outcome (getContract keyed_client {| contractId := "CCAAA" |})
            (always (Fetched (mkResponse 200 "OK" (Some (JObj [("id", JStr "CCAAA")]))))).
Proof.
  exact (proj1 (C10_calls_are_deterministic_and_stateless
                  (mkConfig "https://api.soroscan.io" (Some "my-api-key") None)
                  keyed_client (GetContract {| contractId := "CCAAA" |})
                  [DeleteWebhook "wh_001"; GetEvents None]
                  (always (Fetched (mkResponse 200 "OK" (Some (JObj [("id", JStr "CCAAA")])))))
                  (always (Fetched (mkResponse 200 "OK" (Some (JObj [("id", JStr "CCAAA")])))))
                  eq_refl)).
Defined.

(** The calls of the SDK's own test suite. *)
Example ex_getEvents_url :
  urls_issued
    (getEvents anonymous_client
       (Some [("contractId", JStr "CCAAA"); ("eventType", JStr "transfer");
              ("first", JNum 50)]))
    (always TimerFired)
  = ["https://api.soroscan.io/v1/events?contractId=CCAAA&eventType=transfer&first=50"].
Proof. reflexivity. Qed.

Example ex_500_plain_text :
  outcome (getEvents anonymous_client None)
          (always (Fetched (mkResponse 500 "Internal Server Error" None)))
  = Throw (ApiError (mkSoroScanError "HTTP 500 Internal Server Error" "SoroScanError"
                       500 (JStr "UNKNOWN_ERROR") JUndefined)).
Proof. reflexivity. Qed.

Example ex_success_body :
  outcome (listWebhooks keyed_client)
          (always (Fetched (mkResponse 200 "OK"
                     (Some (JObj [("items", JArr []); ("totalCount", JNum 0)])))))
  = Normal (JObj [("items", JArr []); ("totalCount", JNum 0)]).
Proof. reflexivity. Qed.

Example ex_subscribe_request :
  issued (subscribeWebhook keyed_client
            (JObj [("url", JStr "https://myapp.com/webhook");
                   ("triggers", JArr [JStr "event.created"])]))
         (always TimerFired)
  = [mkRequest "https://api.soroscan.io/v1/webhooks"
       (mkInit POST
          [("Content-Type", "application/json"); ("Accept", "application/json");
           ("Authorization", "Bearer my-api-key")]
          (Some (JSON_stringify
                   (JObj [("url", JStr "https://myapp.com/webhook");
                          ("triggers", JArr [JStr "event.created"])]))))].
Proof. reflexivity. Qed.

End Failures.

(* ------------------------------------------------------------------------- *)
(** * Further properties of [#request] and of the methods *)
(* ------------------------------------------------------------------------- *)

Section Further.
Import Js Net Client Wire Run Shape.

Lemma append_inv_head (a x y : string) : a ++ x = a ++ y -> x = y.
Proof.
  induction a as [|c a IH]; simpl; [auto |].
  intros H. injection H as H. auto.
Qed.

Lemma encodeURIComponent_inj (a b : string) :
  encodeURIComponent a = encodeURIComponent b -> a = b.
Proof.
  intros H. rewrite <- (percent_decode_encodeURIComponent a),
              <- (percent_decode_encodeURIComponent b).
  now rewrite H.
Qed.

Lemma by_id_path (id : string) (params : JsValue) (call : Call) (prefix : string) :
  In (call, prefix) (by_id_calls id params) ->
  path_of call = prefix ++ encodeURIComponent id
  /\ query_of (options_of call) = "".
Proof.
  unfold by_id_calls. simpl.
  intros [H | [H | [H | [H | [H | [H | []]]]]]]; injection H as <- <-;
    split; reflexivity.
Qed.

Lemma by_id_url (this : SoroScanClient) (id : string) (params : JsValue)
    (call : Call) (prefix : string) (w : World) :
  In (call, prefix) (by_id_calls id params) ->
  urls_issued (invoke this call) w
  = [priv_baseUrl this ++ prefix ++ encodeURIComponent id].
Proof.
  intros Hin. destruct (by_id_path _ _ _ _ Hin) as [Hp Hq].
  now rewrite invoke_urls, Hp, Hq, append_empty_r.
Qed.

(** X1. When the server answers with a success status other than 204 and a
    body that parses as JSON, the call returns the parsed body as it is. *)
Theorem X1_success_returns_parsed_body :
  forall (this : SoroScanClient) (call : Call) (w : World) (r : Response)
         (v : JsValue),
    answer (invoke this call) w = Some (Fetched r) ->
    ok r = true ->
    status r <> 204 ->
    json_outcome r = Some v ->
    outcome (invoke this call) w = Normal v.
Proof.
  intros this call w r v Hans Hok H204 Hjson.
  rewrite (invoke_outcome _ _ _ _ Hans). simpl.
  apply Z.eqb_neq in H204. now rewrite H204, Hjson, Hok.
Qed.

Lemma X1_witness :
  outcome (getLedger anonymous_client 42)
          (always (Fetched (mkResponse 200 "OK"
                     (Some (JObj [("sequence", JNum 42); ("hash", JStr "ab")])))))
  = Normal (JObj [("sequence", JNum 42); ("hash", JStr "ab")]).
Proof.
  apply (X1_success_returns_parsed_body anonymous_client (GetLedger 42)
           (always (Fetched (mkResponse 200 "OK"
                      (Some (JObj [("sequence", JNum 42); ("hash", JStr "ab")])))))
           (mkResponse 200 "OK"
              (Some (JObj [("sequence", JNum 42); ("hash", JStr "ab")]))));
    [reflexivity | reflexivity | simpl; lia | reflexivity].
Defined.

(** X2. A call returns a value only when the server answered with a success
    status: the value is [undefined] for 204 and otherwise the parsed body, or
    [null] when the body did not parse.  No value is ever returned after a
    failure status, a timeout or a rejection of [fetch]. *)
Theorem X2_value_only_on_success :
  forall (this : SoroScanClient) (call : Call) (w : World) (v : JsValue),
    outcome (invoke this call) w = Normal v ->
    exists r : Response,
      answer (invoke this call) w = Some (Fetched r)
      /\ ok r = true
      /\ v = (if status r =? 204 then JUndefined
              else match json_outcome r with
                   | Some b => b
                   | None => JNull
                   end).
Proof.
  intros this call w v Hout.
  rewrite invoke_answer. unfold outcome in Hout. rewrite invoke_run in Hout.
  simpl in Hout.
  destruct (network w (sent w) (request_of this call)) as [r | | err];
    simpl in Hout.
  - exists r. split; [reflexivity |].
    destruct (status r =? 204) eqn:E.
    + injection Hout as <-. split; [| reflexivity].
      apply Z.eqb_eq in E. unfold ok. rewrite E. reflexivity.
    + destruct (ok r); [| discriminate].
      injection Hout as <-. split; reflexivity.
  - discriminate.
  - destruct (is_abort_error err); discriminate.
Qed.

Lemma X2_witness :
  exists r : Response,
    answer (deleteWebhook keyed_client "wh_001")
           (always (Fetched (mkResponse 204 "No Content" None)))
    = Some (Fetched r)
    /\ ok r = true
    /\ JUndefined = (if status r =? 204 then JUndefined
                     else match json_outcome r with
                          | Some b => b
                          | None => JNull
                          end).
Proof.
  exact (X2_value_only_on_success keyed_client (DeleteWebhook "wh_001")
           (always (Fetched (mkResponse 204 "No Content" None)))
           JUndefined eq_refl).
Defined.


(** X4. The timer that a call arms is disarmed when the call completes,
    whichever way it completes: after any series of calls the armed timers
    are those that were armed before, and one handle was used per call. *)
Theorem X4_timers_are_disarmed :
  forall (this : SoroScanClient) (calls : list Call) (w : World),
    timers (run_calls this calls w) = timers w
    /\ next_timer (run_calls this calls w)
       = (next_timer w + List.length calls)%nat.
Proof.
  intros this calls. induction calls as [|call calls IH]; intros w; simpl.
  - split; [reflexivity | lia].
  - destruct (IH (snd (invoke this call w))) as [Ht Hn].
    rewrite Ht, Hn, invoke_run. simpl. split; [reflexivity | lia].
Qed.

(** X5. A request carries a body only when it comes from [subscribeWebhook]
    (a POST) or [updateWebhook] (a PATCH), and the body is then
    [JSON.stringify(params)], or absent when [params] is [undefined]; the
    requests of all other methods are GET or DELETE requests without a
    body. *)
Theorem X5_bodies_only_on_post_and_patch :
  forall (this : SoroScanClient) (call : Call) (w : World),
    Forall
      (fun req =>
         match init_method (req_init req) with
         | GET | DELETE => init_body (req_init req) = None
         | POST =>
             exists params,
               call = SubscribeWebhook params
               /\ init_body (req_init req)
                  = match params with
                    | JUndefined => None
                    | _ => Some (JSON_stringify params)
                    end
         | PATCH =>
             exists id params,
               call = UpdateWebhook id params
               /\ init_body (req_init req)
                  = match params with
                    | JUndefined => None
                    | _ => Some (JSON_stringify params)
                    end
         end)
      (issued (invoke this call) w).
Proof.
  intros this call w. rewrite invoke_issued.
  constructor; [| constructor].
  destruct call; simpl; try reflexivity.
  - exists params. split; [reflexivity |]. now destruct params.
  - exists webhookId, params. split; [reflexivity |]. now destruct params.
Qed.

Lemma form_byte_query_safe (c : ascii) :
  all_chars query_safe (form_byte c) = true.
Proof.
  destruct c as [[|] [|] [|] [|] [|] [|] [|] [|]]; reflexivity.
Qed.

Lemma form_urlencode_query_safe (s : string) :
  all_chars query_safe (form_urlencode s) = true.
Proof.
  induction s as [|c s IH]; simpl; [reflexivity |].
  now rewrite all_chars_app, form_byte_query_safe, IH.
Qed.

Lemma all_chars_join (p : ascii -> bool) (sep : string) (parts : list string) :
  all_chars p sep = true ->
  Forall (fun x => all_chars p x = true) parts ->
  all_chars p (join sep parts) = true.
Proof.
  intros Hsep. induction parts as [|x rest IH]; intros Hall; [reflexivity |].
  inversion Hall as [|x' rest' Hx Hrest]; subst.
  destruct rest as [|y rest]; [exact Hx |].
  change (join sep (x :: y :: rest)) with (x ++ sep ++ join sep (y :: rest)).
  now rewrite !all_chars_app, Hx, Hsep, (IH Hrest).
Qed.

(** X6. The query string that [toQueryString] emits is either empty or a
    [?] followed by a non-empty text made only of letters, digits and
    [* - . _ + % = &]: whatever the keys and values, it holds no space, no
    [#], no [/] and no second [?]. *)
Theorem X6_query_string_is_url_safe :
  forall params : Entries,
    toQueryString params = ""
    \/ exists text : string,
         toQueryString params = String "?" text
         /\ text <> ""
         /\ all_chars query_safe text = true.
Proof.
  intros params.
  destruct (filter present (Object_entries params)) as [|kv rest] eqn:Hf.
  - left. now apply toQueryString_none.
  - right. eexists. split; [| split].
    + rewrite toQueryString_some by (rewrite Hf; discriminate). reflexivity.
    + rewrite Hf. unfold URLSearchParams_toString. simpl.
      destruct (form_urlencode (fst kv)); destruct rest; discriminate.
    + unfold URLSearchParams_toString. apply all_chars_join; [reflexivity |].
      apply Forall_forall. intros x Hx. apply in_map_iff in Hx.
      destruct Hx as [pair [<- _]].
      now rewrite !all_chars_app, !form_urlencode_query_safe.
Qed.

(** X7. Two calls of by-id methods with the same path prefix that are given
    distinct identifiers request distinct URLs: identifiers never collide
    after encoding. *)
Theorem X7_distinct_identifiers_distinct_urls :
  forall (this : SoroScanClient) (a b : string) (pa pb : JsValue)
         (call_a call_b : Call) (prefix : string) (wa wb : World),
    In (call_a, prefix) (by_id_calls a pa) ->
    In (call_b, prefix) (by_id_calls b pb) ->
    a <> b ->
    urls_issued (invoke this call_a) wa <> urls_issued (invoke this call_b) wb.
Proof.
  intros this a b pa pb call_a call_b prefix wa wb Ha Hb Hne Hurl.
  rewrite (by_id_url _ _ _ _ _ _ Ha), (by_id_url _ _ _ _ _ _ Hb) in Hurl.
  injection Hurl as Hurl.
  apply append_inv_head, append_inv_head in Hurl.
  now apply Hne, encodeURIComponent_inj.
Qed.

Lemma X7_witness :
  urls_issued (getWebhook keyed_client "a/b") (always TimerFired)
  <> urls_issued (deleteWebhook keyed_client "a%2Fb") (always TimerFired).
Proof.
  apply (X7_distinct_identifiers_distinct_urls keyed_client "a/b" "a%2Fb"
           JUndefined JUndefined (GetWebhook "a/b") (DeleteWebhook "a%2Fb")
           "/v1/webhooks/" (always TimerFired) (always TimerFired)).
  - simpl. tauto.
  - simpl. tauto.
  - discriminate.
Defined.

Lemma encodeURIComponent_unreserved (s : string) :
  all_chars uri_unreserved s = true -> encodeURIComponent s = s.
Proof.
  induction s as [|c s IH]; simpl; [reflexivity |].
  intros H. apply andb_true_iff in H. destruct H as [Hc Hs].
  now rewrite Hc, (IH Hs).
Qed.

(** X8. An identifier made only of letters, digits and [- _ . ! ~ * ' ( )],
    as contract addresses, account addresses and transaction hashes are, is
    put into the path unchanged by every by-id method. *)
Theorem X8_plain_identifiers_pass_unchanged :
  forall (this : SoroScanClient) (id : string) (params : JsValue)
         (call : Call) (prefix : string) (w : World),
    In (call, prefix) (by_id_calls id params) ->
    all_chars uri_unreserved id = true ->
    urls_issued (invoke this call) w = [priv_baseUrl this ++ prefix ++ id].
Proof.
  intros this id params call prefix w Hin Hplain.
  now rewrite (by_id_url _ _ _ _ _ _ Hin), (encodeURIComponent_unreserved _ Hplain).
Qed.

Lemma X8_witness :
  urls_issued (getAccount anonymous_client {| accountId := "GABC234" |})
              (always TimerFired)
  = ["https://api.soroscan.io" ++ "/v1/accounts/" ++ "GABC234"].
Proof.
  apply (X8_plain_identifiers_pass_unchanged anonymous_client "GABC234" JUndefined
           (GetAccount {| accountId := "GABC234" |}) "/v1/accounts/"
           (always TimerFired)).
  - simpl. tauto.
  - reflexivity.
Defined.

(** X9. The credential and the timeout stay out of the request line and the
    body: two clients with the same base URL issue, for the same call,
    requests with the same URL, verb and body, whatever their [apiKey] and
    [timeoutMs]. *)
Theorem X9_key_and_timeout_stay_out_of_url_and_body :
  forall (base : string) (key1 key2 : option string) (ms1 ms2 : Z)
         (call : Call) (w1 w2 : World),
    map line_and_body (issued (invoke (mkClient base key1 ms1) call) w1)
    = map line_and_body (issued (invoke (mkClient base key2 ms2) call) w2).
Proof.
  intros. now rewrite !invoke_issued.
Qed.

(** X10. Construction succeeds for every configuration whose [baseUrl] is
    not empty, and only for those.  It stores the base URL without its final
    slash, the [apiKey] as given, and the [timeoutMs] as given, also when
    that is 0, or 30000 when none is given; it issues no request. *)
Theorem X10_construction_succeeds_iff_baseUrl_nonempty :
  forall (config : SoroScanClientConfig) (w : World),
    (baseUrl config <> "" ->
     constructor config w
     = (Normal (mkClient (replace_trailing_slash (baseUrl config))
                         (apiKey config)
                         (match timeoutMs config with
                          | Some ms => ms
                          | None => 30000
                          end)), w))
    /\ ((exists this, outcome (constructor config) w = Normal this)
        <-> baseUrl config <> "").
Proof.
  intros config w.
  assert (Hok : baseUrl config <> "" ->
                constructor config w
                = (Normal (mkClient (replace_trailing_slash (baseUrl config))
                                    (apiKey config)
                                    (match timeoutMs config with
                                     | Some ms => ms
                                     | None => 30000
                                     end)), w)).
  { intros Hne. unfold constructor, truthy_string.
    destruct (String.eqb_spec (baseUrl config) "") as [E | _]; [contradiction |].
    reflexivity. }
  split; [exact Hok |]. split.
  - intros [this Hthis] Hempty. unfold outcome, constructor, truthy_string in Hthis.
    rewrite Hempty in Hthis. discriminate.
  - intros Hne. eexists. unfold outcome. now rewrite (Hok Hne).
Qed.

Lemma X10_witness :
  constructor (mkConfig "https://api.soroscan.io/" (Some "my-api-key") (Some 0))
              (always TimerFired)
  = (Normal (mkClient "https://api.soroscan.io" (Some "my-api-key") 0),
     always TimerFired).
Proof.
  apply (proj1 (X10_construction_succeeds_iff_baseUrl_nonempty
                  (mkConfig "https://api.soroscan.io/" (Some "my-api-key") (Some 0))
                  (always TimerFired))).
  simpl. discriminate.
Defined.

Lemma filter_idempotent {A} (p : A -> bool) (l : list A) :
  filter p (filter p l) = filter p l.
Proof.
  induction l as [|x l IH]; simpl; [reflexivity |].
  destruct (p x) eqn:E; simpl; [now rewrite E, IH | exact IH].
Qed.

Lemma toQueryString_pairs (params : Entries) :
  toQueryString params
  = match present_pairs params with
    | [] => ""
    | pairs => "?" ++ URLSearchParams_toString pairs
    end.
Proof.
  unfold toQueryString, present_pairs.
  destruct (filter present (Object_entries params)); reflexivity.
Qed.

Lemma all_nullish_no_pairs (params : Entries) :
  all_nullish params = true -> present_pairs params = [].
Proof.
  intros Hnull. unfold present_pairs.
  rewrite present_entries_none; [reflexivity |].
  intros k v Hin. unfold all_nullish in Hnull.
  rewrite forallb_forall in Hnull. exact (Hnull (k, v) Hin).
Qed.

(** X11. For the list methods a key whose value is [undefined] or [null]
    counts as a key that is not there: dropping such keys from the parameter
    bag leaves the request unchanged, and a bag that holds only such keys
    gives the request of a call without parameters. *)
Theorem X11_nullish_parameters_count_as_absent :
  forall (this : SoroScanClient) (method : option Entries -> Call)
         (params : Entries) (w : World),
    In method list_methods ->
    issued (invoke this (method (Some params))) w
      = issued (invoke this (method (Some (filter present params)))) w
    /\ (all_nullish params = true ->
        issued (invoke this (method (Some params))) w
        = issued (invoke this (method None)) w).
Proof.
  intros this method params w Hin.
  assert (Hsame : forall p q, present_pairs p = present_pairs q ->
            issued (invoke this (method (Some p))) w
            = issued (invoke this (method (Some q))) w).
  { intros p q Hpq. rewrite !invoke_issued.
    unfold request_of, wire_request, query_of.
    simpl in Hin.
    destruct Hin as [<- | [<- | [<- | [<- | []]]]]; simpl;
      now rewrite (toQueryString_pairs p), (toQueryString_pairs q), Hpq. }
  split.
  - apply Hsame. unfold present_pairs, Object_entries.
    now rewrite <- filter_property_order, filter_idempotent.
  - intros Hnull.
    assert (Hnone : issued (invoke this (method None)) w
                    = issued (invoke this (method (Some []))) w).
    { simpl in Hin. destruct Hin as [<- | [<- | [<- | [<- | []]]]]; reflexivity. }
    rewrite Hnone. apply Hsame. now rewrite (all_nullish_no_pairs _ Hnull).
Qed.

Lemma X11_witness :
  issued (getContracts anonymous_client
            (Some [("type", JUndefined); ("verified", JNull)]))
         (always TimerFired)
  = issued (getContracts anonymous_client None) (always TimerFired).
Proof.
  apply (proj2 (X11_nullish_parameters_count_as_absent anonymous_client
                  GetContracts [("type", JUndefined); ("verified", JNull)]
                  (always TimerFired) ltac:(simpl; tauto))).
  reflexivity.
Defined.

(** X12. Two parameter bags give the same query string exactly when they
    hold, in the same order, the same present keys with values that convert
    to the same strings: nothing of the present pairs is lost or merged by
    the serialisation. *)
Theorem X12_query_string_determines_present_pairs :
  forall p q : Entries,
    toQueryString p = toQueryString q <-> present_pairs p = present_pairs q.
Proof.
  intros p q. rewrite (toQueryString_pairs p), (toQueryString_pairs q). split.
  - destruct (present_pairs p) as [|x xs] eqn:Hp;
      destruct (present_pairs q) as [|y ys] eqn:Hq; intros H.
    + reflexivity.
    + discriminate.
    + discriminate.
    + injection H as H.
      rewrite <- (parse_URLSearchParams (x :: xs)),
              <- (parse_URLSearchParams (y :: ys)).
      now rewrite H.
  - now intros ->.
Qed.

(** X13. A rejection of [fetch] with an [Error] named [AbortError] is
    reported as a timeout whatever its message; a rejection with a value that
    is not an [Error] is thrown on unchanged, also when that value has a
    [name] property equal to ["AbortError"]. *)
Theorem X13_abort_test_needs_an_Error_named_AbortError :
  forall (this : SoroScanClient) (call : Call) (w : World) (err : Thrown),
    answer (invoke this call) w = Some (Failed err) ->
    (forall text, err = ErrorObject "AbortError" text ->
       outcome (invoke this call) w
       = Throw (ErrorObject "Error"
                  ("SoroScanClient: request timed out after "
                     ++ String_of_number (priv_timeoutMs this) ++ "ms")))
    /\ (forall v, err = NonError v ->
          outcome (invoke this call) w = Throw (NonError v)).
Proof.
  intros this call w err Hans.
  rewrite (invoke_outcome _ _ _ _ Hans).
  split; intros x ->; reflexivity.
Qed.

Lemma X13_witness :
  outcome (listWebhooks keyed_client)
          (always (Failed (NonError (JObj [("name", JStr "AbortError")]))))
  = Throw (NonError (JObj [("name", JStr "AbortError")])).
Proof.
  exact (proj2 (X13_abort_test_needs_an_Error_named_AbortError keyed_client
                  ListWebhooks
                  (always (Failed (NonError (JObj [("name", JStr "AbortError")]))))
                  (NonError (JObj [("name", JStr "AbortError")])) eq_refl)
           (JObj [("name", JStr "AbortError")]) eq_refl).
Defined.



End Further.
